(** * The SCPI-over-TCP bridge of [routes/ethernetRoutes.js]

    A shallow embedding of the command/reply correlator
    ([sendCommandOnceOnSocket]), of the [tcpBusy] gate as the routes use it,
    and of the speed-test harness ([POST /tcp/speedtest]), followed by the
    properties of the specification that concern them.

    Conventions of the embedding.
    - A JavaScript number is a value of [Js.number]: a rational, [NaN] or an
      infinity.  Arithmetic is exact: the rounding of IEEE doubles is not
      modelled, their overflow to an infinity is.
    - Text on the wire is ASCII (the instrument protocol is), so a decoded
      chunk is its bytes and [Buffer.byteLength(s, 'utf8')] is the length of
      [s].
    - [Date.now()] is an integer number of milliseconds, handed to the model
      by the environment with each event. *)

From Stdlib Require Import ZArith QArith Qround Qabs Bool List String Ascii Lia.
From Stdlib Require Import DecimalString.
Import ListNotations.

Local Open Scope string_scope.
Local Open Scope Z_scope.

(* ================================================================== *)
(** * JavaScript values and the built-ins the routes call *)
(* ================================================================== *)

Module Js.

(** A number: a finite value, [NaN], [Infinity] or [-Infinity]. *)
Inductive number : Type :=
| Fin (q : Q)
| NaN
| PosInf
| NegInf.

(** What [req.body] can hold after [express.json()].  An object or an array
    is kept as the text [String(v)] gives for it ("[object Object]" for a
    plain object, the joined elements for an array): that text is all the
    routes' coercions look at.  Objects that shadow [toString] or [valueOf]
    with keys of their own, for which [String(v)] throws or runs other code,
    are left out. *)
Inductive value : Type :=
| VUndefined
| VNull
| VBool (b : bool)
| VNum (n : number)
| VStr (s : string)
| VObj (text : string).

(** ** Strings *)

(** White space and line terminators, within ASCII. *)
Definition is_ws (c : ascii) : bool :=
  let n := nat_of_ascii c in
  ((9 <=? n) && (n <=? 13))%nat || (n =? 32)%nat.

Fixpoint trim_start_chars (l : list ascii) : list ascii :=
  match l with
  | c :: r => if is_ws c then trim_start_chars r else l
  | [] => []
  end.

Definition trim_chars (l : list ascii) : list ascii :=
  rev (trim_start_chars (rev (trim_start_chars l))).

(** [s.trim()] *)
Definition trim (s : string) : string :=
  string_of_list_ascii (trim_chars (list_ascii_of_string s)).

Definition newline : ascii := ascii_of_nat 10.

Definition nl : string := String newline EmptyString.

(** [s.includes('\n')] *)
Fixpoint includes_newline (s : string) : bool :=
  match s with
  | EmptyString => false
  | String c r => Ascii.eqb c newline || includes_newline r
  end.

(** [s.endsWith('\n')] *)
Fixpoint endsWith_newline (s : string) : bool :=
  match s with
  | EmptyString => false
  | String c EmptyString => Ascii.eqb c newline
  | String _ r => endsWith_newline r
  end.

Definition lower_char (c : ascii) : ascii :=
  let n := nat_of_ascii c in
  if ((65 <=? n) && (n <=? 90))%nat then ascii_of_nat (n + 32) else c.

(** [s.toLowerCase()], within ASCII. *)
Fixpoint toLowerCase (s : string) : string :=
  match s with
  | EmptyString => EmptyString
  | String c r => String (lower_char c) (toLowerCase r)
  end.

(** [Buffer.byteLength(s, 'utf8')] on ASCII text. *)
Definition byteLength (s : string) : nat := String.length s.

(** The decimal text of a counter, as a template literal prints it. *)
Definition nat_to_string (n : nat) : string :=
  NilZero.string_of_uint (Nat.to_uint n).

(** ** Numbers *)

(** The least magnitude that a double cannot hold: from [2^1024 - 2^970] on,
    rounding to nearest gives an infinity. *)
Definition overflow_bound : Q := inject_Z (2 ^ 1024 - 2 ^ 970).

Definition of_Q (q : Q) : number :=
  if Qle_bool overflow_bound q then PosInf
  else if Qle_bool q (- overflow_bound)%Q then NegInf
  else Fin q.

Definition of_Z (z : Z) : number := Fin (inject_Z z).

(** [Math.max(a, b)]: [NaN] if either argument is. *)
Definition math_max (a b : number) : number :=
  match a, b with
  | NaN, _ | _, NaN => NaN
  | PosInf, _ | _, PosInf => PosInf
  | NegInf, x => x
  | x, NegInf => x
  | Fin x, Fin y => Fin (if Qle_bool x y then y else x)
  end.

Definition of_nat (n : nat) : number := of_Z (Z.of_nat n).

(** [a + b] *)
Definition add (a b : number) : number :=
  match a, b with
  | NaN, _ | _, NaN => NaN
  | PosInf, NegInf | NegInf, PosInf => NaN
  | PosInf, _ | _, PosInf => PosInf
  | NegInf, _ | _, NegInf => NegInf
  | Fin x, Fin y => of_Q (x + y)
  end.

Definition sign_of (q : Q) : comparison := (0 ?= q)%Q.

Definition infinity_times (positive : bool) (q : Q) : number :=
  match sign_of q with
  | Eq => NaN
  | Lt => if positive then PosInf else NegInf
  | Gt => if positive then NegInf else PosInf
  end.

(** [a * b] *)
Definition mul (a b : number) : number :=
  match a, b with
  | NaN, _ | _, NaN => NaN
  | PosInf, PosInf | NegInf, NegInf => PosInf
  | PosInf, NegInf | NegInf, PosInf => NegInf
  | PosInf, Fin q | Fin q, PosInf => infinity_times true q
  | NegInf, Fin q | Fin q, NegInf => infinity_times false q
  | Fin x, Fin y => of_Q (x * y)
  end.

(** [a < b] on numbers: false as soon as one side is [NaN]. *)
Definition lt (a b : number) : bool :=
  match a, b with
  | NaN, _ | _, NaN => false
  | _, NegInf => false
  | NegInf, _ => true
  | PosInf, _ => false
  | Fin _, PosInf => true
  | Fin x, Fin y => negb (Qle_bool y x)
  end.

(** [a >= b] *)
Definition ge (a b : number) : bool :=
  match a, b with
  | NaN, _ | _, NaN => false
  | _, NegInf => true
  | NegInf, _ => false
  | PosInf, _ => true
  | Fin _, PosInf => false
  | Fin x, Fin y => Qle_bool y x
  end.

(** [Number.isFinite(v)]: no coercion, only a finite number passes. *)
Definition isFinite (v : value) : bool :=
  match v with
  | VNum (Fin _) => true
  | _ => false
  end.

(** Truthiness, as [||], [?:] and [if] test it. *)
Definition truthy (v : value) : bool :=
  match v with
  | VUndefined | VNull => false
  | VBool b => b
  | VNum (Fin q) => negb (Qeq_bool q 0)
  | VNum NaN => false
  | VNum _ => true
  | VStr s => negb (String.eqb s "")
  | VObj _ => true
  end.

(** [a || b] *)
Definition or_else (a b : value) : value := if truthy a then a else b.

(** ** Reading digits *)

Definition digit_of (radix : Z) (c : ascii) : option Z :=
  let n := Z.of_nat (nat_of_ascii c) in
  let d :=
    if (48 <=? n) && (n <=? 57) then n - 48
    else if (97 <=? n) && (n <=? 122) then n - 87
    else if (65 <=? n) && (n <=? 90) then n - 55
    else 99 in
  if d <? radix then Some d else None.

(** The longest run of digits at the head of [l]: its value on top of [acc],
    how many digits were read on top of [cnt], and what follows. *)
Fixpoint read_digits (radix : Z) (l : list ascii) (acc : Z) (cnt : nat)
  : Z * nat * list ascii :=
  match l with
  | c :: r =>
      match digit_of radix c with
      | Some d => read_digits radix r (radix * acc + d) (S cnt)
      | None => (acc, cnt, l)
      end
  | [] => (acc, cnt, [])
  end.

Definition read_sign (l : list ascii) : bool * list ascii :=
  match l with
  | "-"%char :: r => (true, r)
  | "+"%char :: r => (false, r)
  | _ => (false, l)
  end.

Definition signed (neg : bool) (z : Z) : Z := if neg then - z else z.

(** [parseInt(s, 10)] on a string: leading white space, a sign, then the
    longest run of decimal digits; [NaN] when there is no digit. *)
Definition parseInt10_string (s : string) : number :=
  let '(neg, l) := read_sign (trim_start_chars (list_ascii_of_string s)) in
  let '(v, cnt, _) := read_digits 10 l 0 0 in
  match cnt with
  | O => NaN
  | S _ => of_Q (inject_Z (signed neg v))
  end.

(** The first decimal digit of a positive integer. *)
Fixpoint leading_digit_Z (fuel : nat) (n : Z) : Z :=
  match fuel with
  | O => n
  | S f => if n <? 10 then n else leading_digit_Z f (n / 10)
  end.

(** The first significant decimal digit of a rational in (0, 1). *)
Fixpoint leading_digit_frac (fuel : nat) (q : Q) : Z :=
  match fuel with
  | O => Qfloor q
  | S f => if Qle_bool 1 q then Qfloor q else leading_digit_frac f (q * 10)%Q
  end.

(** [parseInt(x, 10)] on a number reads the head of [String(x)].  From
    [1e-6] up to [1e21] that text is plain decimal notation and the digits
    before the point are read: the value truncated.  Outside it is
    exponent notation, [d.ddde+N], and only the leading digit is read. *)
Definition parseInt10_number (n : number) : number :=
  match n with
  | Fin q =>
      let a := Qabs q in
      if Qeq_bool q 0 then of_Z 0
      else if Qle_bool (inject_Z (10 ^ 21)) a then
        let m := Qfloor a in
        of_Z (signed (Qle_bool q 0)
                (leading_digit_Z (S (Z.to_nat (Z.log2 m))) m))
      else if Qle_bool (1 # 1000000)%Q a then
        of_Z (signed (Qle_bool q 0) (Qfloor a))
      else
        of_Z (signed (Qle_bool q 0)
                (leading_digit_frac (S (Z.to_nat (Z.log2 (QDen a)))) a))
  | NaN | PosInf | NegInf => NaN
  end.

(** [String(v)] for the values that are not numbers. *)
Definition to_string (v : value) : string :=
  match v with
  | VUndefined => "undefined"
  | VNull => "null"
  | VBool true => "true"
  | VBool false => "false"
  | VStr s => s
  | VObj text => text
  | VNum _ => ""
  end.

(** [parseInt(v, 10)] *)
Definition parseInt10 (v : value) : number :=
  match v with
  | VNum n => parseInt10_number n
  | _ => parseInt10_string (to_string v)
  end.

(** ** [Number(v)] *)

Definition chars_are (l : list ascii) (s : string) : bool :=
  String.eqb (string_of_list_ascii l) s.

(** A literal in hexadecimal, octal or binary after its prefix: all of [l]
    is digits, and there is at least one. *)
Definition radix_literal (radix : Z) (l : list ascii) : number :=
  match read_digits radix l 0 0 with
  | (v, S _, []) => of_Q (inject_Z v)
  | _ => NaN
  end.

(** The exponent part of a decimal literal, which must end the text. *)
Definition exponent_part (l : list ascii) : option Z :=
  match l with
  | [] => Some 0
  | c :: r =>
      if Ascii.eqb c "e" || Ascii.eqb c "E" then
        let '(neg, r1) := read_sign r in
        match read_digits 10 r1 0 0 with
        | (v, S _, []) => Some (signed neg v)
        | _ => None
        end
      else None
  end.

(** A signed decimal literal: [Infinity], or digits with an optional
    fraction and an optional exponent; a digit is needed on one side of the
    point. *)
Definition decimal_literal (l : list ascii) : number :=
  let '(neg, l0) := read_sign l in
  if chars_are l0 "Infinity" then (if neg then NegInf else PosInf)
  else
    let '(m1, c1, r1) := read_digits 10 l0 0 0 in
    let '(m2, c2, r2) :=
      match r1 with
      | "."%char :: r => read_digits 10 r m1 0
      | _ => (m1, O, r1)
      end in
    match (c1 + c2)%nat with
    | O => NaN
    | S _ =>
        match exponent_part r2 with
        | Some e =>
            of_Q (inject_Z (signed neg m2) * Qpower 10 (e - Z.of_nat c2))%Q
        | None => NaN
        end
    end.

(** [Number(s)] on a string: white space is trimmed, the empty text is 0,
    anything that is not a numeric literal is [NaN]. *)
Definition string_to_number (s : string) : number :=
  let l := trim_chars (list_ascii_of_string s) in
  match l with
  | [] => of_Z 0
  | "0"%char :: p :: r =>
      if Ascii.eqb p "x" || Ascii.eqb p "X" then radix_literal 16 r
      else if Ascii.eqb p "o" || Ascii.eqb p "O" then radix_literal 8 r
      else if Ascii.eqb p "b" || Ascii.eqb p "B" then radix_literal 2 r
      else decimal_literal l
  | _ => decimal_literal l
  end.

(** [Number(v)] *)
Definition to_number (v : value) : number :=
  match v with
  | VUndefined => NaN
  | VNull => of_Z 0
  | VBool b => of_Z (if b then 1 else 0)
  | VNum n => n
  | VStr s => string_to_number s
  | VObj text => string_to_number text
  end.

End Js.

(* ================================================================== *)
(** * The command correlator: [sendCommandOnceOnSocket] *)
(* ================================================================== *)

Module Correlator.

(** What a call resolves with.  A field the source leaves out of the object
    ([timeout], [error]) reads as [undefined]: here [false] and [None]. *)
Record result : Type := mkResult {
  raw : string;
  rtt_ms : option Z;
  bytes : nat;
  timeout : bool;
  error : option string
}.

(** The three listeners a call puts on the socket. *)
Inductive listener : Type := OnData | OnError | OnClose.

(** The socket, as far as a call touches it: whether it is destroyed, which
    of the call's listeners it holds, and what was written to it. *)
Record socket : Type := mkSocket {
  destroyed : bool;
  data_listener : bool;
  error_listener : bool;
  close_listener : bool;
  written : list string
}.

(** [const timer]: not yet initialised while the executor has not reached its
    declaration, then armed, and at last cleared or fired. *)
Inductive timer_state : Type :=
| TimerUninit
| TimerArmed (delay : Js.value)
| TimerCleared
| TimerFired.

Inductive promise : Type :=
| Pending
| Resolved (r : result)
| Rejected (reason : string).

(** The closure of one call, with the socket it works on.  [resolves] logs
    every call of [resolve], oldest first; [settled] is the promise, which
    only the first settlement changes. *)
Record state : Type := mkState {
  sock : socket;
  buffer : string;
  start : Z;
  finished : bool;
  timer : timer_state;
  resolves : list result;
  settled : promise
}.

Definition set_sock (f : socket -> socket) (s : state) : state :=
  mkState (f (sock s)) (buffer s) (start s) (finished s) (timer s)
          (resolves s) (settled s).

Definition set_buffer (b : string) (s : state) : state :=
  mkState (sock s) b (start s) (finished s) (timer s) (resolves s) (settled s).

Definition set_finished (b : bool) (s : state) : state :=
  mkState (sock s) (buffer s) (start s) b (timer s) (resolves s) (settled s).

Definition set_timer (t : timer_state) (s : state) : state :=
  mkState (sock s) (buffer s) (start s) (finished s) t (resolves s) (settled s).

Definition set_listener (l : listener) (b : bool) (k : socket) : socket :=
  match l with
  | OnData =>
      mkSocket (destroyed k) b (error_listener k) (close_listener k) (written k)
  | OnError =>
      mkSocket (destroyed k) (data_listener k) b (close_listener k) (written k)
  | OnClose =>
      mkSocket (destroyed k) (data_listener k) (error_listener k) b (written k)
  end.

Definition has_listener (l : listener) (k : socket) : bool :=
  match l with
  | OnData => data_listener k
  | OnError => error_listener k
  | OnClose => close_listener k
  end.

Definition set_destroyed (k : socket) : socket :=
  mkSocket true (data_listener k) (error_listener k) (close_listener k)
           (written k).

Definition add_written (payload : string) (k : socket) : socket :=
  mkSocket (destroyed k) (data_listener k) (error_listener k)
           (close_listener k) (written k ++ [payload]).

(** ** A state monad with exceptions for the handlers *)

Inductive outcome (A : Type) : Type :=
| Done (a : A)
| Throw (reason : string).

Arguments Done {A} a.
Arguments Throw {A} reason.

Definition M (A : Type) : Type := state -> outcome A * state.

Definition ret {A} (a : A) : M A := fun s => (Done a, s).

Definition bind {A B} (m : M A) (f : A -> M B) : M B :=
  fun s =>
    match m s with
    | (Done a, s') => f a s'
    | (Throw r, s') => (Throw r, s')
    end.

Notation "x <- m ;; k" := (bind m (fun x => k))
  (at level 61, m at next level, right associativity).
Notation "m ;; k" := (bind m (fun _ => k))
  (at level 61, right associativity).

Definition get {A} (f : state -> A) : M A := fun s => (Done (f s), s).

Definition modify (f : state -> state) : M unit := fun s => (Done tt, f s).

(** ** The primitives the handlers use *)

(** [socket.on(ev, h)] and [socket.once(ev, h)] *)
Definition addListener (l : listener) : M unit :=
  modify (set_sock (set_listener l true)).

(** [socket.removeListener(ev, h)] *)
Definition removeListener (l : listener) : M unit :=
  modify (set_sock (set_listener l false)).

Definition tdz_message : string :=
  "Cannot access 'timer' before initialization".

(** Reading the variable [timer]: a [ReferenceError] before its [const]
    declaration has run. *)
Definition read_timer : M timer_state :=
  fun s =>
    match timer s with
    | TimerUninit => (Throw tdz_message, s)
    | t => (Done t, s)
    end.

(** [clearTimeout(timer)]: only an armed timer changes. *)
Definition clearTimeout : M unit :=
  modify (fun s =>
            match timer s with
            | TimerArmed _ => set_timer TimerCleared s
            | _ => s
            end).

(** [resolve(r)]: logged; the promise takes the first settlement only. *)
Definition resolve (r : result) : M unit :=
  modify (fun s =>
            mkState (sock s) (buffer s) (start s) (finished s) (timer s)
                    (resolves s ++ [r])
                    (match settled s with
                     | Pending => Resolved r
                     | p => p
                     end)).

(** ** The handlers, as in the source *)

Definition cleanup : M unit :=
  removeListener OnData ;;
  removeListener OnError ;;
  removeListener OnClose ;;
  _ <- read_timer ;;
  clearTimeout.

(** [{ raw: buffer.trim(), rtt_ms: rtt, bytes: Buffer.byteLength(buffer) }],
    with the [timeout] and [error] fields of the place it is built at. *)
Definition snapshot (rtt : option Z) (tmo : bool) (err : option string)
  : M result :=
  b <- get buffer ;;
  ret (mkResult (Js.trim b) rtt (Js.byteLength b) tmo err).

Definition elapsed (now : Z) : M (option Z) :=
  t0 <- get start ;;
  ret (Some (now - t0)).

Definition onData (chunk : string) (now : Z) : M unit :=
  b <- get buffer ;;
  modify (set_buffer (b ++ chunk)) ;;
  b' <- get buffer ;;
  if Js.includes_newline b' then
    modify (set_finished true) ;;
    cleanup ;;
    rtt <- elapsed now ;;
    r <- snapshot rtt false None ;;
    resolve r
  else ret tt.

(** The body shared by [onError], [onClose], the write callback and the
    [catch] around [socket.write]: each guards on [finished], cleans up and
    resolves with the elapsed time and its message. *)
Definition fail_with (msg : string) (now : Z) : M unit :=
  modify (set_finished true) ;;
  cleanup ;;
  rtt <- elapsed now ;;
  r <- snapshot rtt false (Some msg) ;;
  resolve r.

Definition onError (msg : string) (now : Z) : M unit :=
  f <- get finished ;;
  if f then ret tt else fail_with msg now.

Definition onClose (now : Z) : M unit :=
  f <- get finished ;;
  if f then ret tt else fail_with "socket closed" now.

(** The callback handed to [socket.write]. *)
Definition onWritten (err : option string) (now : Z) : M unit :=
  match err with
  | Some msg =>
      f <- get finished ;;
      if f then ret tt else fail_with msg now
  | None => ret tt
  end.

(** The callback handed to [setTimeout]. *)
Definition onTimer : M unit :=
  f <- get finished ;;
  if f then ret tt
  else
    modify (set_finished true) ;;
    cleanup ;;
    r <- snapshot None true None ;;
    resolve r.

(** The promise executor.  [write_throws] is what [socket.write] does
    synchronously: [None] when it returns, [Some msg] when it throws.  In
    the [catch] the executor returns after resolving, so the timer is only
    set when the write returned (or the call had finished already). *)
Definition executor (command : string) (perCmdTimeoutMs : Js.value) (now : Z)
  (write_throws : option string) : M unit :=
  addListener OnData ;;
  addListener OnError ;;
  addListener OnClose ;;
  let cmd := if Js.endsWith_newline command then command
             else command ++ Js.nl in
  match write_throws with
  | None =>
      modify (set_sock (add_written cmd)) ;;
      modify (set_timer (TimerArmed perCmdTimeoutMs))
  | Some msg =>
      f <- get finished ;;
      if f then modify (set_timer (TimerArmed perCmdTimeoutMs))
      else fail_with msg now
  end.

(** [sendCommandOnceOnSocket(socket, command, perCmdTimeoutMs)], up to the
    return of the promise: an executor that throws rejects it. *)
Definition sendCommandOnceOnSocket (k : socket) (command : string)
  (perCmdTimeoutMs : Js.value) (now : Z) (write_throws : option string)
  : state :=
  let s0 := mkState k "" now false TimerUninit [] Pending in
  match executor command perCmdTimeoutMs now write_throws s0 with
  | (Done _, s) => s
  | (Throw reason, s) =>
      mkState (sock s) (buffer s) (start s) (finished s) (timer s)
              (resolves s)
              (match settled s with
               | Pending => Rejected reason
               | p => p
               end)
  end.

(** ** What the runtime delivers to a call *)

Inductive event : Type :=
| Data (chunk : string)            (* the socket emits 'data' *)
| SockError (msg : string)         (* the socket emits 'error' *)
| SockClose                        (* the socket emits 'close' *)
| TimerExpiry                      (* the delay of the timer has passed *)
| WriteCallback (err : option string).

(** One event at time [now].  A listener runs only while it is registered (a
    [once] listener is removed before it runs), the timer callback only
    while the timer is armed.  A socket that errors or closes is destroyed
    by the time it says so. *)
Definition dispatch (now : Z) (e : event) : M unit :=
  match e with
  | Data chunk =>
      l <- get (fun s => has_listener OnData (sock s)) ;;
      if l then onData chunk now else ret tt
  | SockError msg =>
      modify (set_sock set_destroyed) ;;
      l <- get (fun s => has_listener OnError (sock s)) ;;
      if l then removeListener OnError ;; onError msg now else ret tt
  | SockClose =>
      modify (set_sock set_destroyed) ;;
      l <- get (fun s => has_listener OnClose (sock s)) ;;
      if l then removeListener OnClose ;; onClose now else ret tt
  | TimerExpiry =>
      t <- get timer ;;
      match t with
      | TimerArmed _ => modify (set_timer TimerFired) ;; onTimer
      | _ => ret tt
      end
  | WriteCallback err => onWritten err now
  end.

Definition step (s : state) (te : Z * event) : state :=
  snd (dispatch (fst te) (snd te) s).

(** The call after a sequence of timed events. *)
Definition run (s : state) (trace : list (Z * event)) : state :=
  fold_left step trace s.

(** ** Vocabulary for the statements *)

(** The text a call has received after a sequence of events, on top of
    [b]. *)
Definition received_onto (b : string) (trace : list (Z * event)) : string :=
  fold_left (fun b te => match snd te with
                         | Data chunk => b ++ chunk
                         | _ => b
                         end) trace b.

Definition received (trace : list (Z * event)) : string :=
  received_onto "" trace.

(** An event that cannot end a call: data without a line terminator, or the
    write callback reporting success. *)
Definition quiet (e : event) : bool :=
  match e with
  | Data chunk => negb (Js.includes_newline chunk)
  | WriteCallback None => true
  | _ => false
  end.

(** What a call that has received [b] and started at [t0] resolves with when
    [e] arrives at [now], if [e] ends it. *)
Definition resolution (b : string) (t0 now : Z) (e : event) : option result :=
  match e with
  | Data chunk =>
      if Js.includes_newline (b ++ chunk) then
        Some (mkResult (Js.trim (b ++ chunk)) (Some (now - t0))
                       (Js.byteLength (b ++ chunk)) false None)
      else None
  | SockError msg =>
      Some (mkResult (Js.trim b) (Some (now - t0)) (Js.byteLength b) false
                     (Some msg))
  | SockClose =>
      Some (mkResult (Js.trim b) (Some (now - t0)) (Js.byteLength b) false
                     (Some "socket closed"))
  | WriteCallback (Some msg) =>
      Some (mkResult (Js.trim b) (Some (now - t0)) (Js.byteLength b) false
                     (Some msg))
  | WriteCallback None => None
  | TimerExpiry =>
      Some (mkResult (Js.trim b) None (Js.byteLength b) true None)
  end.

(** The message of an event that reports a failure: an error or the close
    of the socket, or a write that failed. *)
Definition failure (e : event) : option string :=
  match e with
  | SockError msg => Some msg
  | SockClose => Some "socket closed"
  | WriteCallback (Some msg) => Some msg
  | _ => None
  end.

(** No listener of the call is left on the socket and its timer is not
    armed. *)
Definition deactivated (s : state) : bool :=
  negb (data_listener (sock s)) && negb (error_listener (sock s))
  && negb (close_listener (sock s))
  && match timer s with TimerArmed _ => false | _ => true end.

(** A connected socket that no call has touched yet. *)
Definition open_socket : socket := mkSocket false false false false [].

(** The part of a call that its handlers read: everything but the
    [destroyed] flag of the socket and the log of what was written. *)
Definition core (s : state)
  : bool * bool * bool * string * Z * bool * timer_state * list result
    * promise :=
  (data_listener (sock s), error_listener (sock s), close_listener (sock s),
   buffer s, start s, finished s, timer s, resolves s, settled s).

(** A call that is still waiting, with [b] received so far. *)
Definition running (b : string) (s : state) : Prop :=
  buffer s = b /\ finished s = false /\
  data_listener (sock s) = true /\ error_listener (sock s) = true /\
  close_listener (sock s) = true /\
  (exists d, timer s = TimerArmed d) /\
  resolves s = [] /\ settled s = Pending /\
  Js.includes_newline b = false.

(** A call that is over. *)
Definition closed (s : state) : Prop :=
  finished s = true /\ deactivated s = true.

End Correlator.

(* ================================================================== *)
(** * The routes: gate, measurement endpoints and speed test *)
(* ================================================================== *)

Module Routes.

Import Correlator.

(** The module-level state: [tcpClient] and the [tcpBusy] flag. *)
Record server : Type := mkServer {
  tcpClient : option socket;
  tcpBusy : bool
}.

(** What the environment does to one call of [sendCommandOnceOnSocket]:
    the clock when it starts, whether [socket.write] throws, and the events
    that follow. *)
Record call_env : Type := mkEnv {
  at_ms : Z;
  write_throws : option string;
  events : list (Z * event)
}.

(** [await sendCommandOnceOnSocket(k, command, perCmdTimeoutMs)]: the socket
    afterwards and the promise, still [Pending] when the events did not
    settle it. *)
Definition call (k : socket) (command : string) (perCmdTimeoutMs : Js.value)
  (env : call_env) : socket * promise :=
  let s := run (sendCommandOnceOnSocket k command perCmdTimeoutMs
                  (at_ms env) (write_throws env)) (events env) in
  (sock s, settled s).

(** ** Responses *)

(** One element of [results] in the latency mode: a recorded iteration, or
    the note pushed on abort. *)
Inductive entry : Type :=
| Iter (i : nat) (e_raw : string) (e_rtt : option Z) (e_bytes : nat)
       (e_timeout : bool) (e_error : option string)
| Note (note : string).

Record rtt_stats : Type := mkRttStats {
  avg_ms : option Q;
  min_ms : option Z;
  max_ms : option Z;
  ops_per_sec : option Q;
  total_bytes : nat
}.

Record throughput_report : Type := mkThroughput {
  durationRequestedSec : Js.number;
  durationMeasuredSec : Q;
  queriesSent : nat;
  t_total_bytes : nat;
  megabytes : Q;
  mb_per_s : Q;
  t_ops_per_sec : Q;
  t_note : string
}.

Inductive payload : Type :=
| PError (msg : string)
| PSent (sent : string)
| PReply (reply : string) (rtt : option Z) (nbytes : nat) (tmo : bool)
         (err : option string)
| PMeasure (type raw : string) (value : Js.value) (rtt : option Z)
           (nbytes : nat)
| PRtt (cmd : string) (countRequested minDelay : Js.number)
       (stats : rtt_stats) (results : list entry)
| PThroughput (cmd : string) (minDelay perCmdTimeout maxTimeouts : Js.number)
              (report : throughput_report).

Record response : Type := mkResponse {
  status : nat;
  body : payload
}.

Definition not_connected : response :=
  mkResponse 400 (PError "TCP not connected").

Definition device_busy : response :=
  mkResponse 409 (PError "Device busy").

(** [r.error || null]: an empty message is dropped as well. *)
Definition error_or_null (e : option string) : option string :=
  match e with
  | Some msg => if String.eqb msg "" then None else Some msg
  | None => None
  end.

(** ** [POST /send] *)

Record send_body : Type := mkSendBody {
  data : option string;
  appendNewline : Js.value;
  expectResponse : Js.value;
  send_perCmdTimeoutMs : Js.value
}.

(** A destructuring default: taken for [undefined] only. *)
Definition default_to (d v : Js.value) : Js.value :=
  match v with
  | Js.VUndefined => d
  | _ => v
  end.

(** The first time the write callback runs, if it does. *)
Fixpoint write_callback (evs : list (Z * event)) : option (option string) :=
  match evs with
  | [] => None
  | (_, WriteCallback err) :: _ => Some err
  | _ :: r => write_callback r
  end.

(** [writeRaw(socket, data, appendNewline)] *)
Definition writeRaw (k : socket) (text : string) (append : bool)
  (env : call_env) : socket * option (outcome unit) :=
  let payload := if append then text ++ Js.nl else text in
  match write_throws env with
  | Some msg => (k, Some (Throw msg))
  | None =>
      let k' := add_written payload k in
      match write_callback (events env) with
      | None => (k', None)
      | Some (Some msg) => (k', Some (Throw msg))
      | Some None => (k', Some (Done tt))
      end
  end.

Definition send (sv : server) (b : send_body) (env : call_env)
  : server * option response :=
  match tcpClient sv with
  | None => (sv, Some not_connected)
  | Some k =>
      if destroyed k then (sv, Some not_connected)
      else
        let text := match data b with Some d => d | None => "" end in
        let append := Js.truthy (default_to (Js.VBool true) (appendNewline b)) in
        let expect := Js.truthy (default_to (Js.VBool true) (expectResponse b)) in
        let tmo := default_to (Js.VNum (Js.of_Z 3000)) (send_perCmdTimeoutMs b) in
        if negb expect then
          match writeRaw k text append env with
          | (k', None) => (mkServer (Some k') (tcpBusy sv), None)
          | (k', Some (Done _)) =>
              (mkServer (Some k') (tcpBusy sv),
               Some (mkResponse 200 (PSent text)))
          | (k', Some (Throw msg)) =>
              (mkServer (Some k') (tcpBusy sv),
               Some (mkResponse 500 (PError msg)))
          end
        else
          match call k text tmo env with
          | (k', Pending) => (mkServer (Some k') (tcpBusy sv), None)
          | (k', Resolved r) =>
              (mkServer (Some k') (tcpBusy sv),
               Some (mkResponse 200
                       (PReply (raw r) (rtt_ms r) (bytes r) (timeout r)
                               (error_or_null (error r)))))
          | (k', Rejected msg) =>
              (mkServer (Some k') (tcpBusy sv),
               Some (mkResponse 500 (PError msg)))
          end
  end.

(** ** [GET /measure/volt] and [GET /measure/curr] *)

(** [Number.isFinite(value) ? value : r.raw] with [value = Number(r.raw)] *)
Definition measured_value (raw_text : string) : Js.value :=
  let value := Js.to_number (Js.VStr raw_text) in
  if Js.isFinite (Js.VNum value) then Js.VNum value else Js.VStr raw_text.

Definition measure (type command : string) (sv : server) (env : call_env)
  : server * option response :=
  match tcpClient sv with
  | None => (sv, Some not_connected)
  | Some k =>
      if destroyed k then (sv, Some not_connected)
      else if tcpBusy sv then (sv, Some device_busy)
      else
        match call k command (Js.VNum (Js.of_Z 3000)) env with
        | (k', Pending) => (mkServer (Some k') true, None)
        | (k', Resolved r) =>
            (mkServer (Some k') false,
             Some (if timeout r then
                     mkResponse 504
                       (PError "Timeout waiting for instrument reply")
                   else
                     mkResponse 200
                       (PMeasure type (raw r) (measured_value (raw r))
                                 (rtt_ms r) (bytes r))))
        | (k', Rejected msg) =>
            (mkServer (Some k') false, Some (mkResponse 500 (PError msg)))
        end
  end.

Definition measure_volt : server -> call_env -> server * option response :=
  measure "volt" "MEAS:VOLT?".

Definition measure_curr : server -> call_env -> server * option response :=
  measure "curr" "MEAS:CURR?".

(** ** [POST /speedtest]: configuration *)

Record speedtest_body : Type := mkBody {
  mode : Js.value;
  command : option string;
  count : Js.value;
  duration : Js.value;
  minDelayMs : Js.value;
  perCmdTimeoutMs : Js.value;
  maxConsecutiveTimeouts : Js.value
}.

Inductive test_mode : Type := ModeRtt | ModeThroughput | ModeInvalid.

(** [(body.mode || 'rtt').toString().toLowerCase()], compared with the two
    mode names.  The text of a number is neither of them.  An object is one
    whose [toString] can be called (see [Js.value]); an object of the body
    with a key [toString] that is not a function makes this line throw, after
    [tcpBusy = true] and outside the [try], and is not a value of the
    model. *)
Definition parse_mode (v : Js.value) : test_mode :=
  match Js.or_else v (Js.VStr "rtt") with
  | Js.VNum _ => ModeInvalid
  | w =>
      let m := Js.toLowerCase (Js.to_string w) in
      if String.eqb m "rtt" then ModeRtt
      else if String.eqb m "throughput" then ModeThroughput
      else ModeInvalid
  end.

(** [body.command || 'MEAS:VOLT?'] *)
Definition parse_command (c : option string) : string :=
  match c with
  | Some text => if String.eqb text "" then "MEAS:VOLT?" else text
  | None => "MEAS:VOLT?"
  end.

(** [Number.isFinite(v) ? Math.max(floor, v) : default] *)
Definition finite_or_default (floor default : Z) (v : Js.value) : Js.number :=
  if Js.isFinite v then Js.math_max (Js.of_Z floor) (Js.to_number v)
  else Js.of_Z default.

Definition parse_minDelayMs : Js.value -> Js.number :=
  finite_or_default 0 10.

Definition parse_perCmdTimeoutMs : Js.value -> Js.number :=
  finite_or_default 100 3000.

Definition parse_maxConsecutiveTimeouts : Js.value -> Js.number :=
  finite_or_default 1 5.

(** [Math.max(1, parseInt(body.count || 10, 10))] *)
Definition parse_count (v : Js.value) : Js.number :=
  Js.math_max (Js.of_Z 1)
    (Js.parseInt10 (Js.or_else v (Js.VNum (Js.of_Z 10)))).

(** [Math.max(1, Number(body.duration || 5))] *)
Definition parse_durationSec (v : Js.value) : Js.number :=
  Js.math_max (Js.of_Z 1)
    (Js.to_number (Js.or_else v (Js.VNum (Js.of_Z 5)))).

(** ** The two loops *)

(** How far a loop gets on the calls the environment describes: to its end,
    to a rejected call (the [await] throws), or to a call that is still
    pending. *)
Inductive loop (A : Type) : Type :=
| Finished (a : A)
| Failed (reason : string)
| Awaiting.

Arguments Finished {A} a.
Arguments Failed {A} reason.
Arguments Awaiting {A}.

Definition record_iteration (i : nat) (r : result) : entry :=
  Iter (S i) (raw r) (rtt_ms r) (bytes r) (timeout r)
       (error_or_null (error r)).

Definition abort_note (consecutive : nat) : entry :=
  Note ("Aborted after " ++ Js.nat_to_string consecutive
          ++ " consecutive timeouts.").

(** [if (r.timeout) consecutiveTimeouts++; else consecutiveTimeouts = 0;] *)
Definition count_timeout (consecutive : nat) (r : result) : nat :=
  if timeout r then S consecutive else O.

Fixpoint rtt_loop (cmd : string) (tmo maxTimeouts cnt : Js.number)
  (calls : list call_env) (k : socket) (i consecutive : nat)
  (results : list entry) : socket * loop (list entry) :=
  if Js.lt (Js.of_nat i) cnt then
    match calls with
    | [] => (k, Awaiting)
    | env :: rest =>
        match call k cmd (Js.VNum tmo) env with
        | (k', Pending) => (k', Awaiting)
        | (k', Rejected reason) => (k', Failed reason)
        | (k', Resolved r) =>
            let results := (results ++ [record_iteration i r])%list in
            let consecutive := count_timeout consecutive r in
            if Js.ge (Js.of_nat consecutive) maxTimeouts then
              (k', Finished (results ++ [abort_note consecutive])%list)
            else
              rtt_loop cmd tmo maxTimeouts cnt rest k' (S i) consecutive
                       results
        end
    end
  else (k, Finished results).

(** The counters of the throughput loop when it is left, and how many times
    the clock was read. *)
Record counters : Type := mkCounters {
  c_totalBytes : nat;
  c_queries : nat;
  c_ticks : nat
}.

(** [clock n] is what the [n]-th reading of [Date.now()] in the route
    returns: reading 0 is [startTime], each test of the loop takes one. *)
Fixpoint throughput_loop (clock : nat -> Z) (cmd : string)
  (tmo maxTimeouts endAt : Js.number) (calls : list call_env) (k : socket)
  (tick totalBytes queries consecutive : nat) : socket * loop counters :=
  if Js.lt (Js.of_Z (clock tick)) endAt then
    match calls with
    | [] => (k, Awaiting)
    | env :: rest =>
        match call k cmd (Js.VNum tmo) env with
        | (k', Pending) => (k', Awaiting)
        | (k', Rejected reason) => (k', Failed reason)
        | (k', Resolved r) =>
            let consecutive := count_timeout consecutive r in
            let totalBytes := (totalBytes + bytes r)%nat in
            let queries := S queries in
            if Js.ge (Js.of_nat consecutive) maxTimeouts then
              (k', Finished (mkCounters totalBytes queries (S tick)))
            else
              throughput_loop clock cmd tmo maxTimeouts endAt rest k'
                              (S tick) totalBytes queries consecutive
        end
    end
  else (k, Finished (mkCounters totalBytes queries (S tick))).

(** ** Statistics *)

Definition entry_timeout (x : entry) : bool :=
  match x with
  | Iter _ _ _ _ t _ => t
  | Note _ => false
  end.

Definition entry_rtt (x : entry) : option Z :=
  match x with
  | Iter _ _ rtt _ _ _ => rtt
  | Note _ => None
  end.

(** [x.bytes || 0] *)
Definition entry_bytes (x : entry) : nat :=
  match x with
  | Iter _ _ _ b _ _ => b
  | Note _ => O
  end.

(** [!x.timeout && typeof x.rtt_ms === 'number'] *)
Definition is_success (x : entry) : bool :=
  negb (entry_timeout x)
  && match entry_rtt x with Some _ => true | None => false end.

Definition successes (results : list entry) : list entry :=
  filter is_success results.

(** [x.rtt_ms] where it is used as a number ([null] counts as 0). *)
Definition rtt_value (x : entry) : Z :=
  match entry_rtt x with
  | Some ms => ms
  | None => 0
  end.

(** [successes.reduce((s, x) => s + x.rtt_ms, 0)] *)
Definition rtt_sum (l : list entry) : Z :=
  fold_left (fun s x => s + rtt_value x) l 0.

Definition avg_of (results : list entry) : option Q :=
  let ok := successes results in
  match ok with
  | [] => None
  | _ :: _ => Some (inject_Z (rtt_sum ok) / inject_Z (Z.of_nat (List.length ok)))%Q
  end.

(** [Math.min(...l)] and [Math.max(...l)] on a list that is not empty. *)
Definition min_of (results : list entry) : option Z :=
  match map rtt_value (successes results) with
  | [] => None
  | x :: r => Some (fold_left Z.min r x)
  end.

Definition max_of (results : list entry) : option Z :=
  match map rtt_value (successes results) with
  | [] => None
  | x :: r => Some (fold_left Z.max r x)
  end.

(** [results.reduce((s, x) => s + (x.bytes || 0), 0)] *)
Definition totalBytes_of (results : list entry) : nat :=
  fold_left (fun s x => (s + entry_bytes x)%nat) results O.

(** [avg ? (1000 / avg) : null] *)
Definition opsPerSec_of (avg : option Q) : option Q :=
  match avg with
  | Some a => if Qeq_bool a 0 then None else Some (1000 / a)%Q
  | None => None
  end.

Definition rtt_stats_of (results : list entry) : rtt_stats :=
  mkRttStats (avg_of results) (min_of results) (max_of results)
             (opsPerSec_of (avg_of results)) (totalBytes_of results).

Definition throughput_note : string :=
  "Each iteration waits for the instrument response (safe for SCPI instruments).".

(** [Math.max(0.001, elapsedMs / 1000)] *)
Definition seconds_of (elapsedMs : Z) : Q :=
  let sec := (inject_Z elapsedMs / 1000)%Q in
  if Qle_bool (1 # 1000) sec then sec else (1 # 1000)%Q.

Definition throughput_report_of (durationSec : Js.number)
  (startTime endTime : Z) (totalBytes queries : nat) : throughput_report :=
  let elapsedMs := endTime - startTime in
  let seconds := seconds_of elapsedMs in
  let mb := (inject_Z (Z.of_nat totalBytes) / inject_Z (1024 * 1024))%Q in
  mkThroughput durationSec seconds queries totalBytes mb
               (mb / seconds)%Q
               (inject_Z (Z.of_nat queries) / seconds)%Q
               throughput_note.

(** ** The route *)

Definition quote : string := String (ascii_of_nat 34) EmptyString.

(** The message of the 400 answer, with its two quoted mode names. *)
Definition invalid_mode : string :=
  "Invalid mode. Use " ++ quote ++ "rtt" ++ quote ++ " or "
    ++ quote ++ "throughput" ++ quote ++ ".".

(** What the environment does to one request: the readings of the clock and
    the calls on the socket, in order. *)
Record speedtest_env : Type := mkSpeedEnv {
  clock : nat -> Z;
  calls : list call_env
}.

Definition speedtest (sv : server) (b : speedtest_body) (env : speedtest_env)
  : server * option response :=
  match tcpClient sv with
  | None => (sv, Some not_connected)
  | Some k =>
      if destroyed k then (sv, Some not_connected)
      else if tcpBusy sv then (sv, Some device_busy)
      else
        let cmd := parse_command (command b) in
        let delay := parse_minDelayMs (minDelayMs b) in
        let tmo := parse_perCmdTimeoutMs (perCmdTimeoutMs b) in
        let maxTimeouts :=
          parse_maxConsecutiveTimeouts (maxConsecutiveTimeouts b) in
        match parse_mode (mode b) with
        | ModeRtt =>
            let cnt := parse_count (count b) in
            match rtt_loop cmd tmo maxTimeouts cnt (calls env) k 0 0 [] with
            | (k', Awaiting) => (mkServer (Some k') true, None)
            | (k', Failed reason) =>
                (mkServer (Some k') false,
                 Some (mkResponse 500 (PError reason)))
            | (k', Finished results) =>
                (mkServer (Some k') false,
                 Some (mkResponse 200
                         (PRtt cmd cnt delay (rtt_stats_of results) results)))
            end
        | ModeThroughput =>
            let durationSec := parse_durationSec (duration b) in
            let startTime := clock env O in
            let endAt :=
              Js.add (Js.of_Z startTime) (Js.mul durationSec (Js.of_Z 1000)) in
            match throughput_loop (clock env) cmd tmo maxTimeouts endAt
                    (calls env) k 1 0 0 0 with
            | (k', Awaiting) => (mkServer (Some k') true, None)
            | (k', Failed reason) =>
                (mkServer (Some k') false,
                 Some (mkResponse 500 (PError reason)))
            | (k', Finished c) =>
                (mkServer (Some k') false,
                 Some (mkResponse 200
                         (PThroughput cmd delay tmo maxTimeouts
                            (throughput_report_of durationSec startTime
                               (clock env (c_ticks c))
                               (c_totalBytes c) (c_queries c)))))
            end
        | ModeInvalid =>
            (mkServer (Some k) false,
             Some (mkResponse 400
                     (PError invalid_mode)))
        end
  end.

(** ** Vocabulary for the statements *)

(** The promise a call gives in the environment [env]. *)
Definition reply_of (cmd : string) (tmo : Js.value) (env : call_env)
  : promise :=
  snd (call open_socket cmd tmo env).

Definition resolves_with (cmd : string) (tmo : Js.value) (env : call_env)
  (r : result) : Prop :=
  reply_of cmd tmo env = Resolved r.

(** The counter of consecutive timeouts after the results [rs], from [c]. *)
Definition consecutive_from (c : nat) (rs : list result) : nat :=
  fold_left count_timeout rs c.

Definition consecutive_timeouts (rs : list result) : nat :=
  consecutive_from O rs.

(** The records of the iterations that resolved with [rs], numbered from
    [i + 1]. *)
Fixpoint iterations_from (i : nat) (rs : list result) : list entry :=
  match rs with
  | [] => []
  | r :: rest => record_iteration i r :: iterations_from (S i) rest
  end.

Definition iterations (rs : list result) : list entry := iterations_from O rs.

Definition bytes_from (n : nat) (rs : list result) : nat :=
  fold_left (fun n r => (n + bytes r)%nat) rs n.

Definition bytes_of (rs : list result) : nat := bytes_from O rs.

(** The abort rule fires after the last of [rs] and after none before it. *)
Definition aborts_at_end (maxTimeouts : Js.number) (c : nat)
  (rs : list result) : Prop :=
  rs <> []
  /\ Js.ge (Js.of_nat (consecutive_from c rs)) maxTimeouts = true
  /\ forall m, (0 < m < List.length rs)%nat ->
       Js.ge (Js.of_nat (consecutive_from c (firstn m rs))) maxTimeouts
       = false.

(** The abort rule fires after none of [rs]. *)
Definition never_aborts (maxTimeouts : Js.number) (c : nat)
  (rs : list result) : Prop :=
  forall m, (0 < m <= List.length rs)%nat ->
    Js.ge (Js.of_nat (consecutive_from c (firstn m rs))) maxTimeouts = false.

(** The round-trip times the specification counts: those of the iterations
    with [timedOut = false] and a number for [rttMs]. *)
Fixpoint counted (results : list entry) : list Z :=
  match results with
  | [] => []
  | Iter _ _ (Some ms) _ false _ :: rest => ms :: counted rest
  | _ :: rest => counted rest
  end.

Definition sum_Z (l : list Z) : Z := fold_right Z.add 0 l.

(** The mean of a list of times, undefined on the empty list. *)
Definition mean (l : list Z) : option Q :=
  match l with
  | [] => None
  | _ :: _ => Some (inject_Z (sum_Z l) / inject_Z (Z.of_nat (List.length l)))%Q
  end.

(** The per-iteration sequence a response carries; the throughput report has
    none. *)
Definition response_entries (resp : response) : list entry :=
  match body resp with
  | PRtt _ _ _ _ results => results
  | _ => []
  end.

Definition is_note (x : entry) : bool :=
  match x with
  | Note _ => true
  | Iter _ _ _ _ _ _ => false
  end.

End Routes.

(* ================================================================== *)
(** * The connection routes: [POST /connect] and [POST /close] *)
(* ================================================================== *)

Module Lifecycle.

Import Correlator.
Import Routes.

(** What the two routes answer: [{ ok: true }] or an error with its
    status. *)
Inductive answer : Type :=
| Ok
| Refused (status : nat) (msg : string).


(** [POST /close].  Without a live client the answer is immediate.
    Otherwise [tcpClient.end] is called, and its callback, when it runs
    ([flushed]), forgets the client and answers.  This is what the route
    itself assigns: the 'close' that the ended socket emits reaches a call
    in flight as the [SockClose] of that call's own events, and it is the
    route of that call which then releases the gate. *)
Definition close (sv : server) (flushed : bool) : server * option answer :=
  match tcpClient sv with
  | None => (sv, Some Ok)
  | Some k =>
      if destroyed k then (sv, Some Ok)
      else if flushed then (mkServer None (tcpBusy sv), Some Ok)
      else (sv, None)
  end.

(** [!tcpClient || tcpClient.destroyed], the test every route starts with. *)
Definition disconnected (sv : server) : bool :=
  match tcpClient sv with
  | None => true
  | Some k => destroyed k
  end.

End Lifecycle.

(* ================================================================== *)
(** * The UDP client of [server.js]: where a datagram goes *)
(* ================================================================== *)

Module Udp.

(** [udpSocket], as far as the routes test it, and [udpDefaultRemote]. *)
Record state : Type := mkState {
  bound : bool;
  defaultRemote : option (Js.value * Js.value)
}.

Inductive answer : Type :=
| Ok
| Refused (status : nat) (msg : string).

(** [POST /udp/bind] with [{ remoteHost = '127.0.0.1', remotePort = 9200 }]:
    refused when a socket is bound, else the remote is remembered. *)
Definition bind (st : state) (remoteHost remotePort : Js.value)
  : state * answer :=
  if bound st then (st, Refused 400 "UDP already bound")
  else
    (mkState true
       (Some (Routes.default_to (Js.VStr "127.0.0.1") remoteHost,
              Routes.default_to (Js.VNum (Js.of_Z 9200)) remotePort)),
     Ok).

(** One field of [dest]: the spread of [udpDefaultRemote || {}], then the
    field of the request when it is truthy. *)
Definition merged (dflt : option Js.value) (given : Js.value) : Js.value :=
  if Js.truthy given then given
  else match dflt with
       | Some v => v
       | None => Js.VUndefined
       end.

(** [POST /udp/send]: the destination and the answer.  [failed] is the error
    the callback of [send] reports, if any. *)
Definition send (st : state) (host port : Js.value) (failed : option string)
  : option (Js.value * Js.value) * answer :=
  if negb (bound st) then (None, Refused 400 "UDP not bound")
  else
    let h := merged (option_map fst (defaultRemote st)) host in
    let p := merged (option_map snd (defaultRemote st)) port in
    if negb (Js.truthy h) || negb (Js.truthy p) then
      (None, Refused 400 "No destination host/port")
    else
      match failed with
      | Some msg => (Some (h, p), Refused 500 msg)
      | None => (Some (h, p), Ok)
      end.

(** [POST /udp/close] *)
Definition close (st : state) : state * answer :=
  if bound st then (mkState false None, Ok) else (st, Ok).

End Udp.

(* ================================================================== *)
(** * The script launcher of [utils/terminal.js] *)
(* ================================================================== *)

Module Terminal.

(** What [createAndOpenWindowsScript] does to the machine, in order. *)
Inductive action : Type :=
| WriteFile (path content : string)
| Spawn (cmd : string) (args : list string).

(** What happens to one [spawn]: it throws, the child emits 'error' before
    the 100 ms of [trySpawn] are over, or it does not. *)
Inductive spawned : Type :=
| SpawnThrows
| ErrorInTime
| StillRunning.

(** The machine: [os.platform()], the error of [writeFile] if it fails, and
    the fate of each command. *)
Record machine : Type := mkMachine {
  platform : string;
  write_error : option string;
  spawn : string -> list string -> spawned
}.

Inductive outcome : Type :=
| Launched (path launchedWith : string) (args : list string)
| Failed (error : string).

(** [trySpawn(cmd, args)]: [ok] unless the spawn throws or errors within
    100 ms. *)
Definition trySpawn (m : machine) (cmd : string) (args : list string) : bool :=
  match spawn m cmd args with
  | StillRunning => true
  | SpawnThrows | ErrorInTime => false
  end.

(** The commands tried, in order. *)
Definition attempts (usePowershell : bool) (fullPath : string)
  : list (string * list string) :=
  if negb usePowershell then
    [("wt", ["cmd"; "/k"; fullPath]);
     ("cmd.exe", ["/c"; "start"; "cmd"; "/k"; fullPath])]
  else
    [("wt", ["powershell"; "-NoExit"; "-File"; fullPath]);
     ("powershell.exe", ["-NoExit"; "-File"; fullPath]);
     ("cmd.exe", ["/c"; "start"; "powershell"; "-NoExit"; "-File"; fullPath])].

(** [for (const a of attempts) ...]: the first attempt that is [ok] is
    returned. *)
Fixpoint launch (m : machine) (fullPath : string)
  (l : list (string * list string)) (log : list action)
  : list action * outcome :=
  match l with
  | [] => (log, Failed "Failed to launch terminal to run the script")
  | (cmd, args) :: rest =>
      let log' := (log ++ [Spawn cmd args])%list in
      if trySpawn m cmd args then (log', Launched fullPath cmd args)
      else launch m fullPath rest log'
  end.

Section Path.

(** [path.extname] and [path.resolve], of Node's [path] module. *)
Variable extname : string -> string.
Variable resolve : string -> string -> string.

Definition finalName (fileName : string) (usePowershell : bool) : string :=
  let has_ext := negb (String.eqb (extname fileName) "") in
  let ext := if usePowershell then (if has_ext then "" else ".ps1")
             else (if has_ext then "" else ".bat") in
  if has_ext then fileName else fileName ++ ext.

Definition createAndOpenWindowsScript (m : machine)
  (scriptContent fileName : string) (usePowershell : bool) (dir : string)
  : list action * outcome :=
  if negb (String.eqb (platform m) "win32") then
    ([], Failed "Not running on Windows")
  else
    let fullPath := resolve dir (finalName fileName usePowershell) in
    match write_error m with
    | Some msg =>
        ([WriteFile fullPath scriptContent],
         Failed ("Failed to write script: " ++ msg))
    | None =>
        launch m fullPath (attempts usePowershell fullPath)
               [WriteFile fullPath scriptContent]
    end.

End Path.

(** The spawns among the actions. *)
Definition spawns (log : list action) : list (string * list string) :=
  flat_map (fun a => match a with
                     | Spawn cmd args => [(cmd, args)]
                     | WriteFile _ _ => []
                     end) log.

End Terminal.

(* ================================================================== *)
(** * Concrete runs used below *)
(* ================================================================== *)

Module Scenarios.

Import Correlator.
Import Routes.

Definition idle_server : server := mkServer (Some open_socket) false.

Definition busy_server : server := mkServer (Some open_socket) true.

(** A call started at [t] that receives [text] and a line terminator [ms]
    milliseconds later. *)
Definition answered (t ms : Z) (text : string) : call_env :=
  mkEnv t None [(t + ms, Data (text ++ Js.nl))].

(** A call started at [t] that receives [text] without a line terminator and
    whose timer expires [ms] milliseconds after the start. *)
Definition unanswered (t ms : Z) (text : string) : call_env :=
  mkEnv t None [(t + 1, Data text); (t + ms, TimerExpiry)].

Definition plain_body : speedtest_body :=
  mkBody Js.VUndefined None Js.VUndefined Js.VUndefined Js.VUndefined
         Js.VUndefined Js.VUndefined.

Definition number (z : Z) : Js.value := Js.VNum (Js.of_Z z).

(** [{ count: 5 }] *)
Definition five_body : speedtest_body :=
  mkBody Js.VUndefined None (number 5) Js.VUndefined Js.VUndefined
         Js.VUndefined Js.VUndefined.

Definition five_env : speedtest_env :=
  mkSpeedEnv (fun _ => 0)
    [answered 0 5 "1.0"; unanswered 20 3000 "1.";
     answered 3030 7 "1.1"; unanswered 3050 3000 "";
     answered 6060 6 "1.2"].

Definition five_results : list entry :=
  [Iter 1 "1.0" (Some 5) 4 false None;
   Iter 2 "1." None 2 true None;
   Iter 3 "1.1" (Some 7) 4 false None;
   Iter 4 "" None 0 true None;
   Iter 5 "1.2" (Some 6) 4 false None].

(** [{ count: 1 }], and an instrument that answers within the millisecond
    the command was sent in. *)
Definition one_body : speedtest_body :=
  mkBody Js.VUndefined None (number 1) Js.VUndefined Js.VUndefined
         Js.VUndefined Js.VUndefined.

Definition instant_env : speedtest_env :=
  mkSpeedEnv (fun _ => 0) [answered 100 0 "1.0"].

Definition instant_results : list entry :=
  [Iter 1 "1.0" (Some 0) 4 false None].

(** [{ mode: 'throughput' }]: five seconds requested. *)
Definition throughput_body : speedtest_body :=
  mkBody (Js.VStr "throughput") None Js.VUndefined Js.VUndefined
         Js.VUndefined Js.VUndefined Js.VUndefined.

(** The clock of a run of three queries of two seconds each: the start, the
    four tests of the loop, and the reading after the grace pause. *)
Definition slow_clock (n : nat) : Z :=
  match n with
  | 0%nat => 0
  | 1%nat => 0
  | 2%nat => 2000
  | 3%nat => 4000
  | 4%nat => 6000
  | _ => 6120
  end.

Definition slow_env : speedtest_env :=
  mkSpeedEnv slow_clock
    [answered 0 1990 "1.0"; answered 2000 1990 "1.1";
     answered 4000 1990 "1.2"; answered 6000 1990 "1.3"].

Definition slow_report : throughput_report :=
  throughput_report_of (Js.Fin (inject_Z 5)) 0 6120 12 3.

(** [{ mode, perCmdTimeoutMs: 1000, maxConsecutiveTimeouts: 3 }] and an
    instrument that stops answering: three timeouts of one second each, with
    a fourth call that would have been answered. *)
Definition strict_body (m : string) : speedtest_body :=
  mkBody (Js.VStr m) None Js.VUndefined Js.VUndefined Js.VUndefined
         (number 1000) (number 3).

Definition silent_clock (n : nat) : Z :=
  match n with
  | 0%nat => 0
  | 1%nat => 0
  | 2%nat => 1010
  | 3%nat => 2020
  | _ => 3150
  end.

Definition silent_calls : list call_env :=
  [unanswered 0 1000 ""; unanswered 1010 1000 ""; unanswered 2020 1000 ""].

Definition silent_results : list result :=
  [mkResult "" None 0 true None; mkResult "" None 0 true None;
   mkResult "" None 0 true None].

Definition silent_env : speedtest_env :=
  mkSpeedEnv silent_clock (silent_calls ++ [answered 3030 5 "1.0"]).

(** [{ count: 'abc' }] and [{ mode: 'throughput', duration: 'abc' }] *)
Definition text_count_body : speedtest_body :=
  mkBody Js.VUndefined None (Js.VStr "abc") Js.VUndefined Js.VUndefined
         Js.VUndefined Js.VUndefined.

Definition text_duration_body : speedtest_body :=
  mkBody (Js.VStr "throughput") None Js.VUndefined (Js.VStr "abc")
         Js.VUndefined Js.VUndefined Js.VUndefined.

(** [POST /send] with [{ data: 'MEAS:VOLT?' }] *)
Definition query_body : send_body :=
  mkSendBody (Some "MEAS:VOLT?") Js.VUndefined Js.VUndefined Js.VUndefined.

(** A call whose socket closes after 12 ms with "1." received. *)
Definition dropped : call_env :=
  mkEnv 0 None [(3, Data "1."); (12, SockClose)].

(** A latency run of one iteration whose socket closes. *)
Definition dropped_env : speedtest_env :=
  mkSpeedEnv (fun _ => 0) [dropped].

Definition dropped_results : list entry :=
  [Iter 1 "1." (Some 12) 2 false (Some "socket closed")].

End Scenarios.

(* ================================================================== *)
(** * Properties of the correlator *)
(* ================================================================== *)

Module CorrelatorFacts.

Import Correlator.

Ltac reduce_state :=
  cbv beta iota zeta delta
    [sock buffer start finished timer resolves settled destroyed
     data_listener error_listener close_listener written fst snd].

Ltac unfold_handlers :=
  unfold step, dispatch, onData, onError, onClose, onWritten, onTimer,
    fail_with, cleanup, snapshot, elapsed, removeListener, addListener,
    read_timer, clearTimeout, resolve, bind, get, modify, ret,
    set_sock, set_buffer, set_finished, set_timer, set_listener,
    set_destroyed, has_listener.

Lemma includes_newline_app (a b : string) :
  Js.includes_newline (a ++ b)
  = Js.includes_newline a || Js.includes_newline b.
Proof.
  induction a as [|c a IH]; simpl; [reflexivity|].
  rewrite IH. now rewrite orb_assoc.
Qed.

Lemma executor_running k command tmo t0 :
  running "" (sendCommandOnceOnSocket k command tmo t0 None).
Proof.
  unfold running, sendCommandOnceOnSocket, executor.
  unfold_handlers. simpl. repeat split; eauto.
Qed.

Lemma start_of_call k command tmo t0 :
  start (sendCommandOnceOnSocket k command tmo t0 None) = t0.
Proof. reflexivity. Qed.

Lemma running_quiet b s te e :
  running b s -> quiet e = true ->
  running (match e with Data c => b ++ c | _ => b end) (step s (te, e))
  /\ start (step s (te, e)) = start s.
Proof.
  intros (Hb & Hf & Hd & He & Hc & (d & Ht) & Hr & Hp & Hn) Hq.
  destruct s as [[ds ld le lc w] bf st fi ti rs pr]; simpl in *; subst.
  destruct e as [c| | | |[m|]]; simpl in Hq; try discriminate.
  - apply negb_true_iff in Hq.
    unfold running; unfold_handlers; simpl.
    rewrite includes_newline_app, Hn, Hq; simpl.
    repeat split; eauto.
  - unfold running; unfold_handlers; simpl. repeat split; eauto.
Qed.

Lemma running_ends b s te e r :
  running b s -> resolution b (start s) te e = Some r ->
  let s' := step s (te, e) in
  resolves s' = [r] /\ settled s' = Resolved r /\ closed s'.
Proof.
  intros (Hb & Hf & Hd & He & Hc & (d & Ht) & Hr & Hp & Hn) Hres.
  destruct s as [[ds ld le lc w] bf st fi ti rs pr]; simpl in *; subst.
  destruct e as [c|m| | |[m|]]; simpl in Hres; try discriminate.
  - destruct (Js.includes_newline (b ++ c)) eqn:E; [|discriminate].
    injection Hres as <-.
    unfold closed, deactivated; unfold_handlers; simpl. rewrite E; simpl.
    repeat split.
  - injection Hres as <-.
    unfold closed, deactivated; unfold_handlers; reduce_state. repeat split.
  - injection Hres as <-.
    unfold closed, deactivated; unfold_handlers; reduce_state. repeat split.
  - injection Hres as <-.
    unfold closed, deactivated; unfold_handlers; reduce_state. repeat split.
  - injection Hres as <-.
    unfold closed, deactivated; unfold_handlers; reduce_state. repeat split.
Qed.

Lemma closed_step s te e :
  closed s ->
  closed (step s (te, e)) /\ resolves (step s (te, e)) = resolves s
  /\ settled (step s (te, e)) = settled s.
Proof.
  intros (Hf & Hd).
  destruct s as [[ds ld le lc w] bf st fi ti rs pr].
  unfold deactivated in Hd; simpl in *; subst.
  destruct ld, le, lc; try discriminate; simpl in Hd.
  destruct e as [c|m| | |[m|]]; unfold closed, deactivated; unfold_handlers;
    simpl; try (repeat split; assumption).
  destruct ti; try discriminate; simpl; repeat split.
Qed.

Lemma closed_run trace : forall s,
  closed s ->
  closed (run s trace) /\ resolves (run s trace) = resolves s
  /\ settled (run s trace) = settled s.
Proof.
  induction trace as [|[te e] trace IH]; intros s Hc; simpl.
  - repeat split; apply Hc.
  - destruct (closed_step s te e Hc) as (Hc' & Hr & Hp).
    destruct (IH _ Hc') as (Hc'' & Hr' & Hp').
    repeat split; try apply Hc''; congruence.
Qed.

Lemma running_run pre : forall b s,
  running b s -> Forall (fun te => quiet (snd te) = true) pre ->
  running (received_onto b pre) (run s pre) /\ start (run s pre) = start s.
Proof.
  induction pre as [|[te e] pre IH]; intros b s Hrun Hq; simpl.
  - split; [assumption|reflexivity].
  - inversion Hq as [|x l Hq1 Hq2]; subst; simpl in Hq1.
    destruct (running_quiet b s te e Hrun Hq1) as (Hrun' & Hst).
    destruct (IH _ _ Hrun' Hq2) as (Hrun'' & Hst').
    split; [|congruence].
    unfold received_onto in *; simpl. exact Hrun''.
Qed.

Lemma run_app s t1 t2 : run s (t1 ++ t2) = run (run s t1) t2.
Proof. unfold run. apply fold_left_app. Qed.

(** Once the write has thrown, the call is over without a resolution. *)
Lemma thrown_write_closed k command tmo t0 msg :
  let s := sendCommandOnceOnSocket k command tmo t0 (Some msg) in
  closed s /\ resolves s = [] /\ settled s = Rejected tdz_message.
Proof.
  unfold closed, deactivated, sendCommandOnceOnSocket, executor.
  unfold_handlers. reduce_state. repeat split.
Qed.

Lemma running_at_most_once trace : forall b s,
  running b s -> (List.length (resolves (run s trace)) <= 1)%nat.
Proof.
  induction trace as [|[te e] trace IH]; intros b s Hrun; simpl.
  - destruct Hrun as (_ & _ & _ & _ & _ & _ & Hr & _). rewrite Hr. simpl. lia.
  - destruct (quiet e) eqn:Hq.
    + destruct (running_quiet b s te e Hrun Hq) as (Hrun' & _).
      eapply IH; eassumption.
    + assert (exists r, resolution b (start s) te e = Some r) as (r & Hres).
      { destruct Hrun as (_ & _ & _ & _ & _ & _ & _ & _ & Hn).
        destruct e as [c|m| | |[m|]]; simpl in *; try discriminate; eauto.
        apply negb_false_iff in Hq.
        rewrite includes_newline_app, Hq, orb_true_r. eauto. }
      destruct (running_ends b s te e r Hrun Hres) as (Hr & _ & Hc).
      destruct (closed_run trace _ Hc) as (_ & Hr' & _).
      rewrite Hr', Hr. simpl. lia.
Qed.

Lemma received_onto_empty pre : received_onto "" pre = received pre.
Proof. reflexivity. Qed.

(** Events that do not end a call, and the expiry of its timer, leave the
    socket as open as it was. *)
Lemma step_keeps_socket_open s te e :
  quiet e = true \/ e = TimerExpiry ->
  destroyed (sock (step s (te, e))) = destroyed (sock s).
Proof.
  intros H.
  destruct s as [[ds ld le lc w] bf st fi ti rs pr].
  destruct e as [c|m| | |[m|]]; destruct H as [H|H]; try discriminate;
    unfold_handlers; simpl.
  - destruct ld; simpl; [|reflexivity].
    destruct (Js.includes_newline (bf ++ c)); simpl; [|reflexivity].
    destruct ti; reflexivity.
  - destruct ti; simpl; try reflexivity.
    destruct fi; reflexivity.
  - reflexivity.
Qed.

Lemma run_keeps_socket_open pre : forall s,
  Forall (fun te => quiet (snd te) = true) pre ->
  destroyed (sock (run s pre)) = destroyed (sock s).
Proof.
  induction pre as [|[te e] pre IH]; intros s Hq; simpl; [reflexivity|].
  inversion Hq as [|x l Hq1 Hq2]; subst; simpl in Hq1.
  rewrite (IH _ Hq2). apply step_keeps_socket_open. now left.
Qed.

Lemma executor_keeps_socket_open k command tmo t0 w :
  destroyed (sock (sendCommandOnceOnSocket k command tmo t0 w)) = destroyed k.
Proof. destruct w; reflexivity. Qed.

(** The event that ends a call resolves it, once. *)
Lemma correlate_resolves_once_lemma k command tmo t0 pre te e r :
  Forall (fun x => quiet (snd x) = true) pre ->
  resolution (received pre) t0 te e = Some r ->
  let s1 := run (sendCommandOnceOnSocket k command tmo t0 None)
                (pre ++ [(te, e)]) in
  resolves s1 = [r] /\ settled s1 = Resolved r /\ closed s1.
Proof.
  intros Hq Hres s1.
  pose proof (executor_running k command tmo t0) as Hrun0.
  destruct (running_run pre _ _ Hrun0 Hq) as (Hrun & Hst).
  rewrite received_onto_empty in Hrun.
  assert (Hres' : resolution (received pre)
                    (start (run (sendCommandOnceOnSocket k command tmo t0 None)
                                pre)) te e = Some r).
  { rewrite Hst. exact Hres. }
  unfold s1. rewrite run_app. exact (running_ends _ _ te e r Hrun Hres').
Qed.

(** C1: a call of [sendCommandOnceOnSocket] resolves exactly once.  Before
    the first event that can end it (a chunk that brings the first line
    terminator into the buffer, an error or close of the socket, a failed
    write, the expiry of the timer) nothing is resolved; that event resolves
    the promise with its own result and leaves no listener on the socket and
    no armed timer; whatever follows resolves nothing more.  On any sequence
    of events at all, [resolve] is called at most once. *)
Theorem correlate_resolves_exactly_once :
  forall k command tmo t0 pre te e post r,
    Forall (fun x => quiet (snd x) = true) pre ->
    resolution (received pre) t0 te e = Some r ->
    let s0 := sendCommandOnceOnSocket k command tmo t0 None in
    let s1 := run s0 (pre ++ [(te, e)]) in
    let s2 := run s0 (pre ++ (te, e) :: post) in
    (resolves (run s0 pre) = [] /\ settled (run s0 pre) = Pending) /\
    (resolves s1 = [r] /\ settled s1 = Resolved r /\ deactivated s1 = true) /\
    (resolves s2 = [r] /\ settled s2 = Resolved r /\ deactivated s2 = true) /\
    (forall w trace,
        (List.length
           (resolves (run (sendCommandOnceOnSocket k command tmo t0 w) trace))
         <= 1)%nat).
Proof.
  intros k command tmo t0 pre te e post r Hq Hres s0 s1 s2.
  pose proof (executor_running k command tmo t0) as Hrun0.
  destruct (running_run pre _ _ Hrun0 Hq) as (Hrun & Hst).
  rewrite received_onto_empty in Hrun. fold s0 in Hrun, Hst.
  destruct (correlate_resolves_once_lemma k command tmo t0 pre te e r Hq Hres)
    as (Hr1 & Hp1 & Hc1).
  fold s0 in Hr1, Hp1, Hc1. fold s1 in Hr1, Hp1, Hc1.
  assert (E2 : s2 = run s1 post).
  { unfold s2, s1.
    replace (pre ++ (te, e) :: post)%list
      with ((pre ++ [(te, e)]) ++ post)%list
      by (rewrite <- app_assoc; reflexivity).
    apply run_app. }
  split; [|split; [|split]].
  - destruct Hrun as (_ & _ & _ & _ & _ & _ & Hr & Hp & _). now split.
  - repeat split; try assumption. apply Hc1.
  - destruct (closed_run post _ Hc1) as (Hc2 & Hr2 & Hp2).
    rewrite E2. repeat split; try congruence. apply Hc2.
  - intros [msg|] trace.
    + destruct (thrown_write_closed k command tmo t0 msg) as (Hc & Hr & _).
      destruct (closed_run trace _ Hc) as (_ & Hr' & _).
      rewrite Hr', Hr. simpl. lia.
    + eapply running_at_most_once. apply executor_running.
Qed.

(** A reply in two chunks, then a late expiry: the reply is the result. *)
Lemma correlate_resolves_exactly_once_witness :
  settled
    (run (sendCommandOnceOnSocket open_socket "MEAS:VOLT?"
            (Js.VNum (Js.of_Z 3000)) 100 None)
         ([(102, Data "1.")] ++ (105, Data ("0" ++ Js.nl))
            :: [(3100, TimerExpiry)]))
  = Resolved (mkResult "1.0" (Some 5) 4 false None).
Proof.
  apply (correlate_resolves_exactly_once open_socket "MEAS:VOLT?"
           (Js.VNum (Js.of_Z 3000)) 100 [(102, Data "1.")] 105
           (Data ("0" ++ Js.nl)) [(3100, TimerExpiry)]
           (mkResult "1.0" (Some 5) 4 false None)).
  - repeat constructor.
  - reflexivity.
Defined.

(** C2: when the timer expires before any line terminator has arrived, the
    call resolves with [timeout: true], [rtt_ms: null] and the byte length of
    what was buffered; the socket is as open as before, and a next call on it
    resolves with the reply it receives. *)
Theorem timeout_keeps_connection :
  forall k command tmo t0 pre te,
    destroyed k = false ->
    Forall (fun x => quiet (snd x) = true) pre ->
    let s := run (sendCommandOnceOnSocket k command tmo t0 None)
                 (pre ++ [(te, TimerExpiry)]) in
    settled s
    = Resolved (mkResult (Js.trim (received pre)) None
                         (Js.byteLength (received pre)) true None)
    /\ destroyed (sock s) = false
    /\ deactivated s = true
    /\ forall command' tmo' t1 t2 reply,
        Js.includes_newline reply = true ->
        let s' := run (sendCommandOnceOnSocket (sock s) command' tmo' t1 None)
                      [(t2, Data reply)] in
        settled s'
        = Resolved (mkResult (Js.trim reply) (Some (t2 - t1))
                             (Js.byteLength reply) false None)
        /\ destroyed (sock s') = false.
Proof.
  intros k command tmo t0 pre te Hopen Hq s.
  pose proof (executor_running k command tmo t0) as Hrun0.
  destruct (running_run pre _ _ Hrun0 Hq) as (Hrun & Hst).
  rewrite received_onto_empty in Hrun.
  destruct (running_ends _ _ te TimerExpiry _ Hrun eq_refl)
    as (_ & Hp & Hc).
  assert (E : s = step (run (sendCommandOnceOnSocket k command tmo t0 None) pre)
                       (te, TimerExpiry)).
  { unfold s. rewrite run_app. reflexivity. }
  assert (Hd : destroyed (sock s) = false).
  { rewrite E, step_keeps_socket_open by now right.
    rewrite run_keeps_socket_open by assumption.
    now rewrite executor_keeps_socket_open. }
  rewrite <- E in Hp, Hc.
  split; [exact Hp|]. split; [exact Hd|]. split; [apply Hc|].
  intros command' tmo' t1 t2 reply Hnl s'.
  pose proof (executor_running (sock s) command' tmo' t1) as Hrun1.
  assert (Hres : resolution "" (start (sendCommandOnceOnSocket (sock s)
                                         command' tmo' t1 None)) t2
                            (Data reply)
                 = Some (mkResult (Js.trim reply) (Some (t2 - t1))
                                  (Js.byteLength reply) false None)).
  { simpl. rewrite Hnl. reflexivity. }
  destruct (running_ends _ _ t2 (Data reply) _ Hrun1 Hres) as (_ & Hp' & _).
  split; [exact Hp'|].
  unfold s'. simpl.
  destruct (sock s) as [ds ld le lc w] eqn:Es. simpl in Hd. subst ds.
  unfold sendCommandOnceOnSocket, executor. unfold_handlers. simpl.
  rewrite Hnl. reflexivity.
Qed.

(** A timeout with two bytes buffered, then a second call that is answered. *)
Lemma timeout_keeps_connection_witness :
  let s := run (sendCommandOnceOnSocket open_socket "MEAS:VOLT?"
                  (Js.VNum (Js.of_Z 3000)) 0 None)
               ([(40, Data "3.")] ++ [(3000, TimerExpiry)]) in
  settled s = Resolved (mkResult "3." None 2 true None)
  /\ destroyed (sock s) = false
  /\ settled (run (sendCommandOnceOnSocket (sock s) "MEAS:VOLT?"
                     (Js.VNum (Js.of_Z 3000)) 3010 None)
                  [(3015, Data ("1.0" ++ Js.nl))])
     = Resolved (mkResult "1.0" (Some 5) 4 false None).
Proof.
  destruct (timeout_keeps_connection open_socket "MEAS:VOLT?"
              (Js.VNum (Js.of_Z 3000)) 0 [(40, Data "3.")] 3000 eq_refl
              ltac:(repeat constructor)) as (H1 & H2 & _ & H3).
  split; [exact H1|]. split; [exact H2|].
  exact (proj1 (H3 "MEAS:VOLT?" (Js.VNum (Js.of_Z 3000)) 3010 3015
                   ("1.0" ++ Js.nl) eq_refl)).
Defined.

(** The outcome of a call does not depend on the socket it starts from:
    the handlers read neither [destroyed] nor the log of writes. *)
Lemma step_core s s' te e :
  core s = core s' -> core (step s (te, e)) = core (step s' (te, e)).
Proof.
  destruct s as [[ds ld le lc w] bf st fi ti rs pr].
  destruct s' as [[ds' ld' le' lc' w'] bf' st' fi' ti' rs' pr'].
  unfold core; simpl. intros H; injection H as -> -> -> -> -> -> -> -> ->.
  destruct e as [c|m| | |[m|]]; unfold_handlers; simpl.
  - destruct ld'; simpl; [|reflexivity].
    destruct (Js.includes_newline (bf' ++ c)); simpl; [|reflexivity].
    destruct ti'; reflexivity.
  - destruct le'; simpl; [|reflexivity].
    destruct fi'; simpl; [reflexivity|]. destruct ti'; reflexivity.
  - destruct lc'; simpl; [|reflexivity].
    destruct fi'; simpl; [reflexivity|]. destruct ti'; reflexivity.
  - destruct ti'; simpl; try reflexivity. destruct fi'; reflexivity.
  - destruct fi'; simpl; [reflexivity|]. destruct ti'; reflexivity.
  - reflexivity.
Qed.

Lemma run_core trace : forall s s',
  core s = core s' -> core (run s trace) = core (run s' trace).
Proof.
  induction trace as [|[te e] trace IH]; intros s s' H; simpl; [exact H|].
  apply IH, step_core, H.
Qed.

Lemma executor_core k k' command tmo t0 w :
  core (sendCommandOnceOnSocket k command tmo t0 w)
  = core (sendCommandOnceOnSocket k' command tmo t0 w).
Proof. destruct w; reflexivity. Qed.

Lemma settled_any_socket k k' command tmo t0 w trace :
  settled (run (sendCommandOnceOnSocket k command tmo t0 w) trace)
  = settled (run (sendCommandOnceOnSocket k' command tmo t0 w) trace).
Proof.
  pose proof (run_core trace _ _ (executor_core k k' command tmo t0 w)) as H.
  unfold core in H. congruence.
Qed.

End CorrelatorFacts.

(* ================================================================== *)
(** * Properties of the routes *)
(* ================================================================== *)

Module RoutesFacts.

Import Correlator.
Import Routes.

#[local] Arguments Js.ge : simpl never.
#[local] Arguments Js.lt : simpl never.
#[local] Arguments Js.of_nat : simpl never.
#[local] Arguments call : simpl never.

Lemma call_reply k cmd tmo env : snd (call k cmd tmo env) = reply_of cmd tmo env.
Proof.
  unfold reply_of, call; simpl. apply CorrelatorFacts.settled_any_socket.
Qed.

Lemma consecutive_from_cons c r rs :
  consecutive_from c (r :: rs) = consecutive_from (count_timeout c r) rs.
Proof. reflexivity. Qed.

Lemma consecutive_from_snoc c rs r :
  consecutive_from c (rs ++ [r]) = count_timeout (consecutive_from c rs) r.
Proof. unfold consecutive_from. now rewrite fold_left_app. Qed.

Section Loops.

Variables (cmd : string) (tmo maxTimeouts : Js.number).

Lemma aborts_at_end_tail c r r' rs :
  aborts_at_end maxTimeouts c (r :: r' :: rs) ->
  Js.ge (Js.of_nat (count_timeout c r)) maxTimeouts = false
  /\ aborts_at_end maxTimeouts (count_timeout c r) (r' :: rs).
Proof.
  intros (_ & Hlast & Hbefore). split.
  - apply (Hbefore 1%nat). simpl. lia.
  - split; [discriminate|]. split; [exact Hlast|].
    intros m Hm. apply (Hbefore (S m)). simpl in *. lia.
Qed.

Lemma rtt_loop_abort cnt rest : forall envs rs,
  Forall2 (resolves_with cmd (Js.VNum tmo)) envs rs ->
  forall k i c res,
    aborts_at_end maxTimeouts c rs ->
    (forall j, (j < List.length rs)%nat ->
               Js.lt (Js.of_nat (i + j)) cnt = true) ->
    snd (rtt_loop cmd tmo maxTimeouts cnt (envs ++ rest) k i c res)
    = Finished (res ++ iterations_from i rs
                    ++ [abort_note (consecutive_from c rs)])%list.
Proof.
  induction 1 as [|env r envs rs Hr Hrs IH]; intros k i c res Ha Hlt.
  - destruct Ha as (Hne & _). congruence.
  - cbn [app rtt_loop].
    rewrite <- (Nat.add_0_r i) at 1. rewrite Hlt by (simpl; lia).
    pose proof (call_reply k cmd (Js.VNum tmo) env) as Hc.
    destruct (call k cmd (Js.VNum tmo) env) as [k' p]; simpl in Hc.
    rewrite Hc, Hr.
    destruct rs as [|r' rs].
    + inversion Hrs; subst. destruct Ha as (_ & Hlast & _).
      unfold consecutive_from in Hlast; simpl in Hlast. simpl.
      rewrite Hlast. unfold consecutive_from. simpl.
      now rewrite <- app_assoc.
    + destruct (aborts_at_end_tail _ _ _ _ Ha) as (Hno & Ha').
      rewrite Hno.
      rewrite (IH k' (S i) (count_timeout c r) _ Ha').
      * rewrite consecutive_from_cons. cbn [iterations_from].
        now rewrite <- app_assoc.
      * intros j Hj. replace (S i + j)%nat with (i + S j)%nat by lia.
        apply Hlt. simpl in *. lia.
Qed.

Lemma never_aborts_tail c r rs :
  never_aborts maxTimeouts c (r :: rs) ->
  Js.ge (Js.of_nat (count_timeout c r)) maxTimeouts = false
  /\ never_aborts maxTimeouts (count_timeout c r) rs.
Proof.
  intros H. split.
  - apply (H 1%nat). simpl. lia.
  - intros m Hm. apply (H (S m)). simpl. lia.
Qed.

Lemma rtt_loop_complete cnt rest : forall envs rs,
  Forall2 (resolves_with cmd (Js.VNum tmo)) envs rs ->
  forall k i c res,
    never_aborts maxTimeouts c rs ->
    (forall j, (j < List.length rs)%nat ->
               Js.lt (Js.of_nat (i + j)) cnt = true) ->
    Js.lt (Js.of_nat (i + List.length rs)) cnt = false ->
    snd (rtt_loop cmd tmo maxTimeouts cnt (envs ++ rest) k i c res)
    = Finished (res ++ iterations_from i rs)%list.
Proof.
  induction 1 as [|env r envs rs Hr Hrs IH]; intros k i c res Hn Hlt Hend.
  - simpl in Hend. rewrite Nat.add_0_r in Hend.
    destruct rest; cbn [app rtt_loop]; rewrite Hend; simpl;
      now rewrite app_nil_r.
  - cbn [app rtt_loop].
    rewrite <- (Nat.add_0_r i) at 1. rewrite Hlt by (simpl; lia).
    pose proof (call_reply k cmd (Js.VNum tmo) env) as Hc.
    destruct (call k cmd (Js.VNum tmo) env) as [k' p]; simpl in Hc.
    rewrite Hc, Hr.
    destruct (never_aborts_tail _ _ _ Hn) as (Hno & Hn').
    simpl. rewrite Hno.
    rewrite (IH k' (S i) (count_timeout c r) _ Hn').
    + now rewrite <- app_assoc.
    + intros j Hj. replace (S i + j)%nat with (i + S j)%nat by lia.
      apply Hlt. simpl. lia.
    + replace (S i + List.length rs)%nat
        with (i + List.length (r :: rs))%nat by (simpl; lia).
      exact Hend.
Qed.

Variables (clock : nat -> Z) (endAt : Js.number).

Lemma throughput_loop_abort rest : forall envs rs,
  Forall2 (resolves_with cmd (Js.VNum tmo)) envs rs ->
  forall k tick total queries c,
    aborts_at_end maxTimeouts c rs ->
    (forall j, (j < List.length rs)%nat ->
               Js.lt (Js.of_Z (clock (tick + j))) endAt = true) ->
    snd (throughput_loop clock cmd tmo maxTimeouts endAt (envs ++ rest) k
                         tick total queries c)
    = Finished (mkCounters (bytes_from total rs)
                           (queries + List.length rs)
                           (tick + List.length rs)).
Proof.
  induction 1 as [|env r envs rs Hr Hrs IH];
    intros k tick total queries c Ha Hlt.
  - destruct Ha as (Hne & _). congruence.
  - cbn [app throughput_loop].
    rewrite <- (Nat.add_0_r tick) at 1. rewrite Hlt by (simpl; lia).
    pose proof (call_reply k cmd (Js.VNum tmo) env) as Hc.
    destruct (call k cmd (Js.VNum tmo) env) as [k' p]; simpl in Hc.
    rewrite Hc, Hr.
    destruct rs as [|r' rs].
    + inversion Hrs; subst. destruct Ha as (_ & Hlast & _).
      unfold consecutive_from in Hlast; simpl in Hlast. simpl.
      rewrite Hlast. unfold bytes_from. simpl.
      now rewrite !Nat.add_1_r.
    + destruct (aborts_at_end_tail _ _ _ _ Ha) as (Hno & Ha').
      simpl. rewrite Hno.
      rewrite (IH k' (S tick) _ (S queries) (count_timeout c r) Ha').
      * unfold bytes_from. simpl. f_equal. f_equal; lia.
      * intros j Hj. replace (S tick + j)%nat with (tick + S j)%nat by lia.
        apply Hlt. simpl in *. lia.
Qed.

Lemma throughput_loop_complete rest : forall envs rs,
  Forall2 (resolves_with cmd (Js.VNum tmo)) envs rs ->
  forall k tick total queries c,
    never_aborts maxTimeouts c rs ->
    (forall j, (j < List.length rs)%nat ->
               Js.lt (Js.of_Z (clock (tick + j))) endAt = true) ->
    Js.lt (Js.of_Z (clock (tick + List.length rs))) endAt = false ->
    snd (throughput_loop clock cmd tmo maxTimeouts endAt (envs ++ rest) k
                         tick total queries c)
    = Finished (mkCounters (bytes_from total rs)
                           (queries + List.length rs)
                           (S (tick + List.length rs))).
Proof.
  induction 1 as [|env r envs rs Hr Hrs IH];
    intros k tick total queries c Hn Hlt Hend.
  - simpl in Hend. rewrite Nat.add_0_r in Hend.
    destruct rest; cbn [app throughput_loop]; rewrite Hend; simpl;
      now rewrite !Nat.add_0_r.
  - cbn [app throughput_loop].
    rewrite <- (Nat.add_0_r tick) at 1. rewrite Hlt by (simpl; lia).
    pose proof (call_reply k cmd (Js.VNum tmo) env) as Hc.
    destruct (call k cmd (Js.VNum tmo) env) as [k' p]; simpl in Hc.
    rewrite Hc, Hr.
    destruct (never_aborts_tail _ _ _ Hn) as (Hno & Hn').
    simpl. rewrite Hno.
    rewrite (IH k' (S tick) _ (S queries) (count_timeout c r) Hn').
    + unfold bytes_from. simpl. f_equal. f_equal; lia.
    + intros j Hj. replace (S tick + j)%nat with (tick + S j)%nat by lia.
      apply Hlt. simpl. lia.
    + replace (S tick + List.length rs)%nat
        with (tick + List.length (r :: rs))%nat by (simpl; lia).
      exact Hend.
Qed.

End Loops.

(** ** Statistics of the latency mode *)

Lemma successes_counted results :
  map rtt_value (successes results) = counted results.
Proof.
  induction results as [|x results IH]; [reflexivity|].
  destruct x as [i rw [ms|] b [|] er|note]; simpl; try exact IH.
  unfold rtt_value at 1; simpl. now f_equal.
Qed.

Lemma rtt_sum_from l : forall acc,
  fold_left (fun s x => s + rtt_value x) l acc
  = acc + sum_Z (map rtt_value l).
Proof.
  induction l as [|x l IH]; intros acc; simpl; [lia|].
  rewrite IH. lia.
Qed.

Lemma avg_of_mean results : avg_of results = mean (counted results).
Proof.
  unfold avg_of, mean. rewrite <- successes_counted.
  destruct (successes results) as [|x ok] eqn:E; [reflexivity|].
  unfold rtt_sum. rewrite rtt_sum_from.
  rewrite length_map. reflexivity.
Qed.

Lemma fold_min_least r : forall x,
  let m := fold_left Z.min r x in
  In m (x :: r) /\ Forall (fun y => m <= y) (x :: r).
Proof.
  induction r as [|y r IH]; intros x; simpl.
  - split; [now left|]. constructor; [lia|constructor].
  - destruct (IH (Z.min x y)) as (Hin & Hall).
    inversion Hall as [|a l Hm Hr]; subst. split.
    + destruct Hin as [Hin|Hin]; [|now right; right].
      rewrite <- Hin. destruct (Z.min_spec x y) as [(_ & ->)|(_ & ->)];
        [now left|now right; left].
    + constructor; [lia|]. constructor; [lia|exact Hr].
Qed.

Lemma fold_max_greatest r : forall x,
  let m := fold_left Z.max r x in
  In m (x :: r) /\ Forall (fun y => y <= m) (x :: r).
Proof.
  induction r as [|y r IH]; intros x; simpl.
  - split; [now left|]. constructor; [lia|constructor].
  - destruct (IH (Z.max x y)) as (Hin & Hall).
    inversion Hall as [|a l Hm Hr]; subst. split.
    + destruct Hin as [Hin|Hin]; [|now right; right].
      rewrite <- Hin. destruct (Z.max_spec x y) as [(_ & ->)|(_ & ->)];
        [now right; left|now left].
    + constructor; [lia|]. constructor; [lia|exact Hr].
Qed.

Lemma min_of_least results :
  match min_of results with
  | None => counted results = []
  | Some m => In m (counted results)
              /\ Forall (fun y => m <= y) (counted results)
  end.
Proof.
  unfold min_of. rewrite successes_counted.
  destruct (counted results) as [|x r]; [reflexivity|].
  apply fold_min_least.
Qed.

Lemma max_of_greatest results :
  match max_of results with
  | None => counted results = []
  | Some m => In m (counted results)
              /\ Forall (fun y => y <= m) (counted results)
  end.
Proof.
  unfold max_of. rewrite successes_counted.
  destruct (counted results) as [|x r]; [reflexivity|].
  apply fold_max_greatest.
Qed.

Lemma totalBytes_from results : forall acc,
  fold_left (fun s x => (s + entry_bytes x)%nat) results acc
  = (acc + list_sum (map entry_bytes results))%nat.
Proof.
  induction results as [|x results IH]; intros acc; simpl; [lia|].
  rewrite IH. lia.
Qed.

Lemma totalBytes_of_sum results :
  totalBytes_of results = list_sum (map entry_bytes results).
Proof. unfold totalBytes_of. now rewrite totalBytes_from. Qed.

Lemma counted_app l1 l2 : counted (l1 ++ l2) = (counted l1 ++ counted l2)%list.
Proof.
  induction l1 as [|x l1 IH]; [reflexivity|].
  destruct x as [i rw [ms|] b [|] er|note]; simpl; rewrite IH; reflexivity.
Qed.

Lemma counted_skips_timeout l1 x l2 :
  entry_timeout x = true -> counted (l1 ++ x :: l2) = counted (l1 ++ l2).
Proof.
  intros H. rewrite !counted_app. f_equal.
  destruct x as [i rw [ms|] b [|] er|note]; simpl in *;
    try discriminate; reflexivity.
Qed.

(** ** What a response of the speed test stands for *)

Lemma speedtest_rtt_response sv b env st cmd cnt delay stats results :
  snd (speedtest sv b env)
  = Some (mkResponse st (PRtt cmd cnt delay stats results)) ->
  st = 200%nat /\ stats = rtt_stats_of results
  /\ tcpBusy (fst (speedtest sv b env)) = false
  /\ cnt = parse_count (count b)
  /\ exists k,
      tcpClient sv = Some k
      /\ snd (rtt_loop (parse_command (command b))
                (parse_perCmdTimeoutMs (perCmdTimeoutMs b))
                (parse_maxConsecutiveTimeouts (maxConsecutiveTimeouts b))
                (parse_count (count b)) (calls env) k 0 0 [])
         = Finished results.
Proof.
  unfold speedtest.
  destruct (tcpClient sv) as [k|]; [|discriminate].
  destruct (destroyed k); [discriminate|].
  destruct (tcpBusy sv); [discriminate|].
  destruct (parse_mode (mode b)).
  - destruct (rtt_loop _ _ _ _ _ _ _ _ _) as [k' [res|reason|]] eqn:E;
      try discriminate.
    intros H. cbn [snd] in H. injection H as <- <- <- <- <- <-.
    repeat split; try reflexivity. exists k. now rewrite E.
  - destruct (throughput_loop _ _ _ _ _ _ _ _ _ _ _) as [k' [c|reason|]];
      discriminate.
  - discriminate.
Qed.

Lemma speedtest_throughput_response sv b env st cmd delay tmo maxT rep :
  snd (speedtest sv b env)
  = Some (mkResponse st (PThroughput cmd delay tmo maxT rep)) ->
  st = 200%nat /\ tcpBusy (fst (speedtest sv b env)) = false
  /\ exists k c,
      tcpClient sv = Some k
      /\ snd (throughput_loop (clock env) (parse_command (command b))
                (parse_perCmdTimeoutMs (perCmdTimeoutMs b))
                (parse_maxConsecutiveTimeouts (maxConsecutiveTimeouts b))
                (Js.add (Js.of_Z (clock env 0))
                        (Js.mul (parse_durationSec (duration b))
                                (Js.of_Z 1000)))
                (calls env) k 1 0 0 0)
         = Finished c
      /\ rep = throughput_report_of (parse_durationSec (duration b))
                 (clock env 0) (clock env (c_ticks c))
                 (c_totalBytes c) (c_queries c).
Proof.
  unfold speedtest.
  destruct (tcpClient sv) as [k|]; [|discriminate].
  destruct (destroyed k); [discriminate|].
  destruct (tcpBusy sv); [discriminate|].
  destruct (parse_mode (mode b)).
  - destruct (rtt_loop _ _ _ _ _ _ _ _ _) as [k' [res|reason|]];
      discriminate.
  - destruct (throughput_loop _ _ _ _ _ _ _ _ _ _ _) as [k' [c|reason|]] eqn:E;
      try discriminate.
    intros H. cbn [snd] in H. injection H as <- <- <- <- <- <-.
    split; [reflexivity|]. split; [reflexivity|].
    exists k, c. rewrite E. repeat split.
  - discriminate.
Qed.

(** C5: in a response of the latency mode, [avg_ms], [min_ms] and [max_ms]
    are the mean, the least and the greatest of the round-trip times of the
    iterations that did not time out and hold a number, and are [null] when
    there is none; a timed-out iteration adds nothing to them.
    [total_bytes] is the sum of the bytes of every element of [results],
    the timed-out iterations included. *)
Theorem latency_stats_exclude_timeouts :
  forall sv b env st cmd cnt delay stats results,
    snd (speedtest sv b env)
    = Some (mkResponse st (PRtt cmd cnt delay stats results)) ->
    avg_ms stats = mean (counted results)
    /\ match min_ms stats with
       | None => counted results = []
       | Some m => In m (counted results)
                   /\ Forall (fun y => m <= y) (counted results)
       end
    /\ match max_ms stats with
       | None => counted results = []
       | Some m => In m (counted results)
                   /\ Forall (fun y => y <= m) (counted results)
       end
    /\ total_bytes stats = list_sum (map entry_bytes results)
    /\ forall l1 x l2,
        results = (l1 ++ x :: l2)%list -> entry_timeout x = true ->
        counted results = counted (l1 ++ l2)
        /\ list_sum (map entry_bytes results)
           = (list_sum (map entry_bytes (l1 ++ l2)) + entry_bytes x)%nat.
Proof.
  intros sv b env st cmd cnt delay stats results H.
  destruct (speedtest_rtt_response _ _ _ _ _ _ _ _ _ H) as (_ & -> & _).
  simpl. split; [apply avg_of_mean|].
  split; [apply min_of_least|]. split; [apply max_of_greatest|].
  split; [apply totalBytes_of_sum|].
  intros l1 x l2 -> Hx. split; [now apply counted_skips_timeout|].
  rewrite !map_app, !list_sum_app. simpl. lia.
Qed.

(** Five iterations of which the second and the fourth time out: the mean is
    that of the first, third and fifth. *)
Lemma latency_stats_exclude_timeouts_witness :
  avg_ms (rtt_stats_of Scenarios.five_results) = mean [5; 7; 6]
  /\ total_bytes (rtt_stats_of Scenarios.five_results) = 14%nat.
Proof.
  destruct (latency_stats_exclude_timeouts Scenarios.idle_server
              Scenarios.five_body Scenarios.five_env 200 "MEAS:VOLT?"
              (Js.of_Z 5) (Js.of_Z 10)
              (rtt_stats_of Scenarios.five_results) Scenarios.five_results
              eq_refl) as (Havg & _ & _ & Hbytes & _).
  split; [exact Havg|exact Hbytes].
Defined.

Lemma avg_of_none results : avg_of results = None <-> counted results = [].
Proof.
  rewrite avg_of_mean. unfold mean.
  destruct (counted results); split; congruence.
Qed.

(** C6, as the code has it: [ops_per_sec] is [1000 / avg_ms] when [avg_ms] is
    a number other than zero, and [null] when [avg_ms] is [null] (no
    iteration counts) or zero. *)
Theorem ops_per_sec_of_nonzero_average :
  forall sv b env st cmd cnt delay stats results,
    snd (speedtest sv b env)
    = Some (mkResponse st (PRtt cmd cnt delay stats results)) ->
    (forall a, avg_ms stats = Some a -> ~ (a == 0)%Q ->
               ops_per_sec stats = Some (1000 / a)%Q)
    /\ (forall a, avg_ms stats = Some a -> (a == 0)%Q ->
                  ops_per_sec stats = None)
    /\ (avg_ms stats = None -> ops_per_sec stats = None)
    /\ (avg_ms stats = None <-> counted results = []).
Proof.
  intros sv b env st cmd cnt delay stats results H.
  destruct (speedtest_rtt_response _ _ _ _ _ _ _ _ _ H) as (_ & -> & _).
  simpl. repeat split.
  - intros a -> Ha. simpl.
    destruct (Qeq_bool a 0) eqn:E; [|reflexivity].
    apply Qeq_bool_iff in E. contradiction.
  - intros a -> Ha. simpl.
    apply Qeq_bool_iff in Ha. now rewrite Ha.
  - intros ->. reflexivity.
  - apply avg_of_none.
  - apply avg_of_none.
Qed.

(** The five iterations above average 6 ms: 1000 / 6 operations a second. *)
Lemma ops_per_sec_of_nonzero_average_witness :
  ops_per_sec (rtt_stats_of Scenarios.five_results)
  = Some (1000 / (18 # 3))%Q.
Proof.
  destruct (ops_per_sec_of_nonzero_average Scenarios.idle_server
              Scenarios.five_body Scenarios.five_env 200 "MEAS:VOLT?"
              (Js.of_Z 5) (Js.of_Z 10)
              (rtt_stats_of Scenarios.five_results) Scenarios.five_results
              eq_refl) as (H & _).
  apply (H (18 # 3)%Q eq_refl). discriminate.
Defined.

(** C6 as the specification states it fails when the average is zero: a
    reply within the millisecond of the command gives [avg_ms = 0], a defined
    average, and [ops_per_sec] is [null]. *)
Lemma ops_per_sec_null_at_zero_average :
  snd (speedtest Scenarios.idle_server Scenarios.one_body
         Scenarios.instant_env)
  = Some (mkResponse 200
            (PRtt "MEAS:VOLT?" (Js.of_Z 1) (Js.of_Z 10)
                  (mkRttStats (Some (0 # 1)%Q) (Some 0) (Some 0) None 4)
                  Scenarios.instant_results)).
Proof. reflexivity. Qed.

(** ** Statistics of the throughput mode *)

Lemma seconds_of_positive elapsedMs :
  0 < elapsedMs -> seconds_of elapsedMs = (inject_Z elapsedMs / 1000)%Q.
Proof.
  intros H. unfold seconds_of.
  destruct (Qle_bool (1 # 1000) (inject_Z elapsedMs / 1000)) eqn:E;
    [reflexivity|].
  assert (Hle : (1 # 1000 <= inject_Z elapsedMs / 1000)%Q).
  { unfold Qle, Qdiv, Qmult, Qinv, inject_Z; simpl. lia. }
  apply Qle_bool_iff in Hle. congruence.
Qed.

Lemma throughput_loop_counts clk cmd tmo maxT endAt :
  forall envs k tick total queries c cs,
    snd (throughput_loop clk cmd tmo maxT endAt envs k tick total queries c)
    = Finished cs ->
    exists rs,
      Forall2 (resolves_with cmd (Js.VNum tmo))
              (firstn (List.length rs) envs) rs
      /\ c_totalBytes cs = bytes_from total rs
      /\ c_queries cs = (queries + List.length rs)%nat
      /\ (tick < c_ticks cs)%nat.
Proof.
  induction envs as [|env envs IH]; intros k tick total queries c cs;
    cbn [throughput_loop].
  - destruct (Js.lt (Js.of_Z (clk tick)) endAt); cbn [snd]; [discriminate|].
    intros H; injection H as <-. exists []. simpl.
    repeat split; try constructor; lia.
  - destruct (Js.lt (Js.of_Z (clk tick)) endAt); cbn [snd].
    + pose proof (call_reply k cmd (Js.VNum tmo) env) as Hc.
      destruct (call k cmd (Js.VNum tmo) env) as [k' [ | r | reason]];
        cbn [snd] in Hc; try discriminate.
      destruct (Js.ge (Js.of_nat (count_timeout c r)) maxT).
      * cbn [snd]. intros H; injection H as <-. exists [r]. simpl.
        repeat split; try lia. constructor; [now symmetry|constructor].
      * intros H. destruct (IH _ _ _ _ _ _ H) as (rs & Hrs & Hb & Hq & Ht).
        exists (r :: rs). simpl.
        split; [constructor; [now symmetry|exact Hrs]|].
        split; [exact Hb|]. split; lia.
    + intros H; injection H as <-. exists []. simpl.
      repeat split; try constructor; lia.
Qed.

Lemma aborts_at_end_cons maxT c r rs :
  Js.ge (Js.of_nat (count_timeout c r)) maxT = false ->
  aborts_at_end maxT (count_timeout c r) rs ->
  aborts_at_end maxT c (r :: rs).
Proof.
  intros Hno (Hne & Hlast & Hbefore).
  split; [discriminate|]. split; [exact Hlast|].
  intros m Hm. destruct m as [|m]; [lia|]. simpl firstn.
  rewrite consecutive_from_cons. destruct m as [|m].
  - simpl. exact Hno.
  - apply Hbefore. simpl in Hm. lia.
Qed.

Lemma never_aborts_cons maxT c r rs :
  Js.ge (Js.of_nat (count_timeout c r)) maxT = false ->
  never_aborts maxT (count_timeout c r) rs ->
  never_aborts maxT c (r :: rs).
Proof.
  intros Hno Hn m Hm. destruct m as [|m]; [lia|]. simpl firstn.
  rewrite consecutive_from_cons. destruct m as [|m].
  - simpl. exact Hno.
  - apply Hn. simpl in Hm. lia.
Qed.

(** Where the throughput loop is left: after the call that made the abort
    rule fire, or at the first test of the clock that fails; and which
    reading of the clock comes next. *)
Lemma throughput_loop_trace clk cmd tmo maxT endAt :
  forall envs k tick total queries c cs,
    snd (throughput_loop clk cmd tmo maxT endAt envs k tick total queries c)
    = Finished cs ->
    exists rs,
      Forall2 (resolves_with cmd (Js.VNum tmo))
              (firstn (List.length rs) envs) rs
      /\ (forall j, (j < List.length rs)%nat ->
                    Js.lt (Js.of_Z (clk (tick + j)%nat)) endAt = true)
      /\ c_totalBytes cs = bytes_from total rs
      /\ c_queries cs = (queries + List.length rs)%nat
      /\ ((aborts_at_end maxT c rs
           /\ c_ticks cs = (tick + List.length rs)%nat)
          \/ (never_aborts maxT c rs
              /\ Js.lt (Js.of_Z (clk (tick + List.length rs)%nat)) endAt
                 = false
              /\ c_ticks cs = S (tick + List.length rs))).
Proof.
  induction envs as [|env envs IH]; intros k tick total queries c cs;
    cbn [throughput_loop].
  - destruct (Js.lt (Js.of_Z (clk tick)) endAt) eqn:Hlt; cbn [snd];
      [discriminate|].
    intros H; injection H as <-. exists []. simpl.
    split; [constructor|]. split; [intros j Hj; lia|].
    split; [reflexivity|]. split; [lia|].
    right. rewrite Nat.add_0_r. split; [|now split].
    intros m Hm. simpl in Hm. lia.
  - destruct (Js.lt (Js.of_Z (clk tick)) endAt) eqn:Hlt; cbn [snd].
    + pose proof (call_reply k cmd (Js.VNum tmo) env) as Hc.
      destruct (call k cmd (Js.VNum tmo) env) as [k' [ | r | reason]];
        cbn [snd] in Hc; try discriminate.
      destruct (Js.ge (Js.of_nat (count_timeout c r)) maxT) eqn:Hge.
      * cbn [snd]. intros H; injection H as <-. exists [r]. simpl.
        split; [constructor; [now symmetry|constructor]|].
        split.
        { intros j Hj. assert (j = 0)%nat as -> by lia.
          now rewrite Nat.add_0_r. }
        split; [reflexivity|]. split; [lia|].
        left. split; [|lia].
        split; [discriminate|]. split; [exact Hge|].
        intros m Hm. simpl in Hm. lia.
      * intros H.
        destruct (IH _ _ _ _ _ _ H)
          as (rs & Hrs & Hlts & Hb & Hq & Hend).
        exists (r :: rs). simpl.
        split; [constructor; [now symmetry|exact Hrs]|].
        split.
        { intros j Hj. destruct j as [|j]; [now rewrite Nat.add_0_r|].
          replace (tick + S j)%nat with (S tick + j)%nat by lia.
          apply Hlts. lia. }
        split; [exact Hb|]. split; [lia|].
        destruct Hend as [(Ha & Ht)|(Hn & Hstop & Ht)].
        -- left. split; [now apply aborts_at_end_cons|]. lia.
        -- right. split; [now apply never_aborts_cons|].
           replace (tick + S (List.length rs))%nat
             with (S tick + List.length rs)%nat by lia.
           split; [exact Hstop|exact Ht].
    + intros H; injection H as <-. exists []. simpl.
      split; [constructor|]. split; [intros j Hj; lia|].
      split; [reflexivity|]. split; [lia|].
      right. rewrite Nat.add_0_r. split; [|now split].
      intros m Hm. simpl in Hm. lia.
Qed.

(** C7: in a response of the throughput mode, [queriesSent] and
    [total_bytes] are the number and the bytes of the calls [rs] that were
    made: those made while the clock read before the end of the requested
    duration, up to the call that made the abort rule fire, if any.
    [durationMeasuredSec] is the time from the first reading of the clock
    ([startTime]) to the one reading taken after the loop and the grace
    pause, in seconds: that is reading [1 + n] after [n] calls when the run
    was aborted, and reading [2 + n] when a test of the loop ended it.  It
    is that elapsed time itself as soon as it is positive, as it is after
    the grace pause (the code puts a floor of one millisecond under it), and
    not the requested duration, which is reported beside it.  [mb_per_s] is
    [total_bytes / 1048576] over the measured duration and [ops_per_sec] is
    [queriesSent] over it. *)
Theorem throughput_rates_from_measured_time :
  forall sv b env st cmd delay tmo maxT rep,
    snd (speedtest sv b env)
    = Some (mkResponse st (PThroughput cmd delay tmo maxT rep)) ->
    let endAt := Js.add (Js.of_Z (clock env 0))
                        (Js.mul (parse_durationSec (duration b))
                                (Js.of_Z 1000)) in
    exists rs ticks,
      Forall2 (resolves_with cmd (Js.VNum tmo))
              (firstn (List.length rs) (calls env)) rs
      /\ (forall j, (j < List.length rs)%nat ->
                    Js.lt (Js.of_Z (clock env (1 + j)%nat)) endAt = true)
      /\ ((aborts_at_end maxT 0 rs /\ ticks = (1 + List.length rs)%nat)
          \/ (never_aborts maxT 0 rs
              /\ Js.lt (Js.of_Z (clock env (1 + List.length rs)%nat)) endAt
                 = false
              /\ ticks = (2 + List.length rs)%nat))
      /\ queriesSent rep = List.length rs
      /\ t_total_bytes rep = bytes_of rs
      /\ durationRequestedSec rep = parse_durationSec (duration b)
      /\ durationMeasuredSec rep
         = seconds_of (clock env ticks - clock env 0)
      /\ (0 < clock env ticks - clock env 0 ->
          durationMeasuredSec rep
          = (inject_Z (clock env ticks - clock env 0) / 1000)%Q)
      /\ megabytes rep
         = (inject_Z (Z.of_nat (t_total_bytes rep)) / inject_Z 1048576)%Q
      /\ mb_per_s rep = (megabytes rep / durationMeasuredSec rep)%Q
      /\ t_ops_per_sec rep
         = (inject_Z (Z.of_nat (queriesSent rep)) / durationMeasuredSec rep)%Q.
Proof.
  intros sv b env st cmd delay tmo maxT rep H endAt.
  pose proof H as H'. unfold speedtest in H'.
  destruct (speedtest_throughput_response _ _ _ _ _ _ _ _ _ H)
    as (_ & _ & k & c & Hk & Hloop & ->).
  rewrite Hk in H'.
  destruct (destroyed k); [discriminate|].
  destruct (tcpBusy sv); [discriminate|].
  destruct (parse_mode (mode b)).
  - destruct (rtt_loop _ _ _ _ _ _ _ _ _) as [k' [res|reason|]];
      discriminate.
  - rewrite (surjective_pairing (throughput_loop _ _ _ _ _ _ _ _ _ _ _)) in H'.
    rewrite Hloop in H'. cbn [snd] in H'. injection H' as <- <- <- <- <-.
    destruct (throughput_loop_trace _ _ _ _ _ _ _ _ _ _ _ _ Hloop)
      as (rs & Hrs & Hlts & Hb & Hq & Hend).
    exists rs, (c_ticks c).
    split; [exact Hrs|]. split; [exact Hlts|].
    split.
    { destruct Hend as [(Ha & Ht)|(Hn & Hstop & Ht)].
      - left. split; [exact Ha|exact Ht].
      - right. split; [exact Hn|]. split; [exact Hstop|exact Ht]. }
    simpl. split; [exact Hq|]. split; [exact Hb|].
    split; [reflexivity|]. split; [reflexivity|].
    split; [apply seconds_of_positive|]. repeat split.
  - discriminate.
Qed.

(** Three queries in 6.12 s where 5 s were requested: a test of the loop
    ends the run, the fifth reading of the clock closes it, and the rates
    are over 6.12 s. *)
Lemma throughput_rates_from_measured_time_witness :
  exists (rs : list result) (ticks : nat),
    List.length rs = 3%nat
    /\ ticks = 5%nat
    /\ queriesSent Scenarios.slow_report = List.length rs
    /\ durationRequestedSec Scenarios.slow_report = Js.of_Z 5
    /\ durationMeasuredSec Scenarios.slow_report
       = (inject_Z (Scenarios.slow_clock ticks - Scenarios.slow_clock 0)
          / 1000)%Q
    /\ mb_per_s Scenarios.slow_report
       = (megabytes Scenarios.slow_report
          / durationMeasuredSec Scenarios.slow_report)%Q.
Proof.
  destruct (throughput_rates_from_measured_time Scenarios.idle_server
              Scenarios.throughput_body Scenarios.slow_env 200 "MEAS:VOLT?"
              (Js.of_Z 10) (Js.of_Z 3000) (Js.of_Z 5) Scenarios.slow_report
              eq_refl)
    as (rs & ticks & _ & _ & Hend & Hq & _ & Hreq & _ & Hpos & _ & Hmb & _).
  assert (Hlen : List.length rs = 3%nat) by (symmetry; exact Hq).
  assert (Ht : ticks = 5%nat).
  { destruct Hend as [((_ & Hge & _) & _)|(_ & _ & Ht)].
    - exfalso.
      assert (Hc : (consecutive_from 0 rs <= List.length rs)%nat).
      { unfold consecutive_from. clear.
        assert (G : forall l c,
                   (fold_left count_timeout l c <= c + List.length l)%nat).
        { induction l as [|r l IH]; intros c; simpl; [lia|].
          specialize (IH (count_timeout c r)).
          unfold count_timeout in *. destruct (timeout r); lia. }
        apply (G rs 0%nat). }
      rewrite Hlen in Hc.
      destruct (consecutive_from 0 rs) as [|[|[|[|n]]]];
        try discriminate Hge; lia.
    - rewrite Hlen in Ht. exact Ht. }
  exists rs, ticks.
  split; [exact Hlen|]. split; [exact Ht|]. split; [exact Hq|].
  split; [exact Hreq|]. split; [|exact Hmb].
  apply Hpos. rewrite Ht. reflexivity.
Defined.

(** ** The measurement endpoints *)

(** C9: when the call of a measurement endpoint resolves without a timeout,
    the endpoint answers 200 with the raw text and a [value] that is the
    number [Number(raw)] when that is finite, and the raw text itself
    otherwise. *)
Theorem measurement_value_falls_back_to_raw :
  forall type command sv k env r,
    tcpClient sv = Some k -> destroyed k = false -> tcpBusy sv = false ->
    reply_of command (Js.VNum (Js.of_Z 3000)) env = Resolved r ->
    timeout r = false ->
    exists v,
      snd (measure type command sv env)
      = Some (mkResponse 200
                (PMeasure type (raw r) v (rtt_ms r) (bytes r)))
      /\ tcpBusy (fst (measure type command sv env)) = false
      /\ (forall q, Js.to_number (Js.VStr (raw r)) = Js.Fin q ->
                    v = Js.VNum (Js.Fin q))
      /\ ((forall q, Js.to_number (Js.VStr (raw r)) <> Js.Fin q) ->
          v = Js.VStr (raw r)).
Proof.
  intros type command sv k env r Hk Hd Hb Hr Ht.
  exists (measured_value (raw r)).
  unfold measure. rewrite Hk, Hd, Hb.
  pose proof (call_reply k command (Js.VNum (Js.of_Z 3000)) env) as Hc.
  destruct (call k command (Js.VNum (Js.of_Z 3000)) env) as [k' p].
  cbn [snd] in Hc. rewrite Hc, Hr, Ht. cbn [snd fst tcpBusy].
  split; [reflexivity|]. split; [reflexivity|].
  unfold measured_value. split.
  - intros q ->. reflexivity.
  - intros Hn. destruct (Js.to_number (Js.VStr (raw r))) as [q| | |];
      try reflexivity. now destruct (Hn q).
Qed.

(** The two replies of the specification: "3.301" is the number 3.301 and
    "ERR" stays the text it is, both with status 200. *)
Lemma measurement_value_falls_back_to_raw_witness :
  snd (measure_volt Scenarios.idle_server (Scenarios.answered 0 5 "3.301"))
  = Some (mkResponse 200
            (PMeasure "volt" "3.301" (Js.VNum (Js.Fin (3301 # 1000)))
                      (Some 5) 6))
  /\ snd (measure_volt Scenarios.idle_server (Scenarios.answered 0 5 "ERR"))
     = Some (mkResponse 200
               (PMeasure "volt" "ERR" (Js.VStr "ERR") (Some 5) 4)).
Proof.
  split.
  - destruct (measurement_value_falls_back_to_raw "volt" "MEAS:VOLT?"
                Scenarios.idle_server open_socket
                (Scenarios.answered 0 5 "3.301")
                (mkResult "3.301" (Some 5) 6 false None)
                eq_refl eq_refl eq_refl eq_refl eq_refl)
      as (v & Hresp & _ & Hnum & _).
    rewrite (Hnum (3301 # 1000)%Q eq_refl) in Hresp. exact Hresp.
  - destruct (measurement_value_falls_back_to_raw "volt" "MEAS:VOLT?"
                Scenarios.idle_server open_socket
                (Scenarios.answered 0 5 "ERR")
                (mkResult "ERR" (Some 5) 4 false None)
                eq_refl eq_refl eq_refl eq_refl eq_refl)
      as (v & Hresp & _ & _ & Hraw).
    rewrite Hraw in Hresp; [exact Hresp|]. intros q; discriminate.
Defined.

(** ** Failed calls in the statistics *)

Lemma counted_of_success x results :
  In x results -> is_success x = true ->
  In (rtt_value x) (counted results).
Proof.
  intros Hin Hok. rewrite <- successes_counted.
  apply in_map. unfold successes. apply filter_In. now split.
Qed.

(** C10: a call that ends by an error or the close of the socket, or by a
    failed write, resolves with the time elapsed so far as [rtt_ms], with no
    [timeout] flag and with the message as [error]; the record of such an
    iteration passes the filter of the latency statistics.  Consequently, in
    every latency response whose [results] hold such a record, [avg_ms],
    [min_ms] and [max_ms] are numbers, not [null]: the time of the failed
    call is one of the times they are computed from, [min_ms] is at most that
    time, [max_ms] at least, and [avg_ms] is the mean of a list that holds
    it. *)
Theorem failed_call_counts_as_success :
  forall k command tmo t0 pre te e msg,
    Forall (fun x => quiet (snd x) = true) pre ->
    failure e = Some msg ->
    exists r,
      settled (run (sendCommandOnceOnSocket k command tmo t0 None)
                   (pre ++ [(te, e)]))
      = Resolved r
      /\ rtt_ms r = Some (te - t0) /\ timeout r = false
      /\ error r = Some msg
      /\ (forall i, is_success (record_iteration i r) = true)
      /\ (forall i before after,
             counted (before ++ record_iteration i r :: after)
             = (counted before ++ (te - t0) :: counted after)%list)
      /\ (forall sv b env st cmd cnt delay stats results i,
             snd (speedtest sv b env)
             = Some (mkResponse st (PRtt cmd cnt delay stats results)) ->
             In (record_iteration i r) results ->
             exists a lo hi,
               avg_ms stats = Some a
               /\ min_ms stats = Some lo
               /\ max_ms stats = Some hi
               /\ lo <= te - t0 <= hi
               /\ In (te - t0) (counted results)
               /\ Some a = mean (counted results)).
Proof.
  intros k command tmo t0 pre te e msg Hq Hf.
  assert (Hres : resolution (received pre) t0 te e
                 = Some (mkResult (Js.trim (received pre)) (Some (te - t0))
                                  (Js.byteLength (received pre)) false
                                  (Some msg))).
  { destruct e as [c|m| | |[m|]]; simpl in Hf; try discriminate;
      injection Hf as <-; reflexivity. }
  destruct (CorrelatorFacts.correlate_resolves_once_lemma k command tmo t0
              pre te e _ Hq Hres) as (_ & Hp & _).
  eexists. split; [exact Hp|]. cbn [rtt_ms timeout error].
  split; [reflexivity|]. split; [reflexivity|]. split; [reflexivity|].
  split; [reflexivity|].
  split. { intros i before after. rewrite counted_app. reflexivity. }
  intros sv b env st cmd cnt delay stats results i H Hin.
  destruct (speedtest_rtt_response _ _ _ _ _ _ _ _ _ H) as (_ & -> & _).
  pose proof (counted_of_success _ _ Hin eq_refl) as Hc.
  change (rtt_value (record_iteration i _)) with (te - t0) in Hc.
  pose proof (min_of_least results) as Hmin.
  pose proof (max_of_greatest results) as Hmax.
  pose proof (avg_of_mean results) as Havg.
  cbn [avg_ms min_ms max_ms rtt_stats_of].
  destruct (min_of results) as [lo|];
    [|rewrite Hmin in Hc; destruct Hc].
  destruct (max_of results) as [hi|];
    [|rewrite Hmax in Hc; destruct Hc].
  destruct Hmin as (_ & Hlo). destruct Hmax as (_ & Hhi).
  rewrite Forall_forall in Hlo, Hhi.
  destruct (avg_of results) as [a|] eqn:Ea.
  - exists a, lo, hi. repeat split; auto.
  - exfalso. unfold mean in Havg.
    destruct (counted results); [destruct Hc|discriminate].
Qed.

(** A socket that closes 12 ms into the only call of a latency run: the
    iteration is recorded with 12 ms and the three figures are 12 ms. *)
Lemma failed_call_counts_as_success_witness :
  snd (speedtest Scenarios.idle_server Scenarios.one_body
                 Scenarios.dropped_env)
  = Some (mkResponse 200
            (PRtt "MEAS:VOLT?" (Js.of_Z 1) (Js.of_Z 10)
                  (rtt_stats_of Scenarios.dropped_results)
                  Scenarios.dropped_results))
  /\ exists a lo hi,
      avg_ms (rtt_stats_of Scenarios.dropped_results) = Some a
      /\ min_ms (rtt_stats_of Scenarios.dropped_results) = Some lo
      /\ max_ms (rtt_stats_of Scenarios.dropped_results) = Some hi
      /\ lo <= 12 <= hi
      /\ (a == 12)%Q.
Proof.
  split; [reflexivity|].
  destruct (failed_call_counts_as_success open_socket "MEAS:VOLT?"
              (Js.VNum (Js.of_Z 3000)) 0 [(3, Data "1.")] 12 SockClose
              "socket closed" ltac:(repeat constructor) eq_refl)
    as (r & Hp & _ & _ & _ & _ & _ & Hagg).
  injection Hp as <-.
  destruct (Hagg Scenarios.idle_server Scenarios.one_body
              Scenarios.dropped_env 200%nat "MEAS:VOLT?" (Js.of_Z 1)
              (Js.of_Z 10)
              (rtt_stats_of Scenarios.dropped_results)
              Scenarios.dropped_results 0%nat eq_refl (or_introl eq_refl))
    as (a & lo & hi & Ha & Hlo & Hhi & Hb & _ & Hmean).
  exists a, lo, hi. repeat split; try assumption; try apply Hb.
  injection Hmean as ->. reflexivity.
Defined.

(** ** The gate *)

(** The routes that look at [tcpBusy] answer "Device busy" while it is set,
    and touch neither the socket nor the flag. *)
Lemma gated_routes_reject_when_busy sv k :
  tcpClient sv = Some k -> destroyed k = false -> tcpBusy sv = true ->
  (forall type command env,
      measure type command sv env = (sv, Some device_busy))
  /\ (forall b env, speedtest sv b env = (sv, Some device_busy)).
Proof.
  intros Hk Hd Hb. split; intros; unfold measure, speedtest;
    rewrite Hk, Hd, Hb; reflexivity.
Qed.

(** A gated route holds the flag while its call is pending and has released
    it whenever it answers. *)
Lemma measure_toggles_gate type command sv k env :
  tcpClient sv = Some k -> destroyed k = false -> tcpBusy sv = false ->
  tcpBusy (fst (measure type command sv env))
  = match snd (measure type command sv env) with
    | None => true
    | Some _ => false
    end.
Proof.
  intros Hk Hd Hb. unfold measure. rewrite Hk, Hd, Hb.
  destruct (call k command (Js.VNum (Js.of_Z 3000)) env) as [k' [ | r | m]];
    reflexivity.
Qed.

Lemma speedtest_toggles_gate sv k b env :
  tcpClient sv = Some k -> destroyed k = false -> tcpBusy sv = false ->
  tcpBusy (fst (speedtest sv b env))
  = match snd (speedtest sv b env) with
    | None => true
    | Some _ => false
    end.
Proof.
  intros Hk Hd Hb. unfold speedtest. rewrite Hk, Hd, Hb.
  destruct (parse_mode (mode b)).
  - destruct (rtt_loop _ _ _ _ _ _ _ _ _) as [k' [res|reason|]]; reflexivity.
  - destruct (throughput_loop _ _ _ _ _ _ _ _ _ _ _) as [k' [c|reason|]];
      reflexivity.
  - reflexivity.
Qed.

(** [POST /send] neither looks at the flag nor sets it: whatever the flag
    is, the route does the same to the socket and answers the same, and it
    never answers "Device busy". *)
Lemma send_ignores_gate c flag flag' b env :
  snd (send (mkServer c flag) b env) = snd (send (mkServer c flag') b env)
  /\ tcpClient (fst (send (mkServer c flag) b env))
     = tcpClient (fst (send (mkServer c flag') b env))
  /\ tcpBusy (fst (send (mkServer c flag) b env)) = flag
  /\ snd (send (mkServer c flag) b env) <> Some device_busy.
Proof.
  unfold send. cbn [tcpClient tcpBusy].
  destruct c as [k|]; [|repeat split; try reflexivity; discriminate].
  destruct (destroyed k); [repeat split; try reflexivity; discriminate|].
  destruct (negb (Js.truthy (default_to (Js.VBool true) (expectResponse b)))).
  - destruct (writeRaw _ _ _ _) as [k' [[u|m]|]];
      repeat split; try reflexivity; discriminate.
  - destruct (call _ _ _ _) as [k' [ | r | m]];
      repeat split; try reflexivity; discriminate.
Qed.

(** C3 at its failing input: with the gate held, [GET /measure/volt] is
    turned away with "Device busy" and nothing is written, while
    [POST /send] with an expected reply writes its command to the socket,
    waits for the reply and answers 200. *)
Theorem send_correlates_while_gate_held :
  measure_volt Scenarios.busy_server (Scenarios.answered 0 5 "1.0")
  = (Scenarios.busy_server, Some device_busy)
  /\ send Scenarios.busy_server Scenarios.query_body
          (Scenarios.answered 0 5 "1.0")
     = (mkServer
          (Some (mkSocket false false false false ["MEAS:VOLT?" ++ Js.nl]))
          true,
        Some (mkResponse 200 (PReply "1.0" (Some 5) 4 false None))).
Proof. split; reflexivity. Qed.

(** ** The abort rule *)

Lemma bytes_of_from rs : bytes_from 0 rs = bytes_of rs.
Proof. reflexivity. Qed.

(** C4, as the code has it.  When the calls of a run resolve with [rs] and
    the counter of consecutive timeouts reaches the maximum after the last of
    them, the run stops there, however many iterations or seconds were
    requested and whatever calls would follow.  In the latency mode the
    response holds the records of these iterations followed by the abort
    note.  In the throughput mode the response holds their number and their
    bytes; it has no per-iteration sequence, and its note is the fixed text
    of every throughput response.  The counter is zero after a result that
    is not a timeout and one more after a timeout. *)
Theorem consecutive_timeouts_stop_the_run :
  forall sv k b env envs rest rs,
    tcpClient sv = Some k -> destroyed k = false -> tcpBusy sv = false ->
    calls env = (envs ++ rest)%list ->
    Forall2 (resolves_with (parse_command (command b))
               (Js.VNum (parse_perCmdTimeoutMs (perCmdTimeoutMs b))))
            envs rs ->
    aborts_at_end (parse_maxConsecutiveTimeouts (maxConsecutiveTimeouts b))
                  0 rs ->
    (parse_mode (mode b) = ModeRtt ->
     (forall j, (j < List.length rs)%nat ->
                Js.lt (Js.of_nat j) (parse_count (count b)) = true) ->
     snd (speedtest sv b env)
     = Some (mkResponse 200
               (PRtt (parse_command (command b)) (parse_count (count b))
                     (parse_minDelayMs (minDelayMs b))
                     (rtt_stats_of
                        (iterations rs
                           ++ [abort_note (consecutive_timeouts rs)]))
                     (iterations rs
                        ++ [abort_note (consecutive_timeouts rs)]))))
    /\ (parse_mode (mode b) = ModeThroughput ->
        (forall j, (j < List.length rs)%nat ->
                   Js.lt (Js.of_Z (clock env (1 + j)))
                         (Js.add (Js.of_Z (clock env 0))
                                 (Js.mul (parse_durationSec (duration b))
                                         (Js.of_Z 1000))) = true) ->
        exists resp rep,
          snd (speedtest sv b env) = Some resp
          /\ resp = mkResponse 200
                      (PThroughput (parse_command (command b))
                         (parse_minDelayMs (minDelayMs b))
                         (parse_perCmdTimeoutMs (perCmdTimeoutMs b))
                         (parse_maxConsecutiveTimeouts
                            (maxConsecutiveTimeouts b)) rep)
          /\ queriesSent rep = List.length rs
          /\ t_total_bytes rep = bytes_of rs
          /\ t_note rep = throughput_note
          /\ response_entries resp = [])
    /\ (forall c r, timeout r = false -> count_timeout c r = 0%nat)
    /\ (forall c r, timeout r = true -> count_timeout c r = S c).
Proof.
  intros sv k b env envs rest rs Hk Hd Hb Hcalls Hrs Ha.
  split; [|split; [|split]].
  - intros Hm Hlt. unfold speedtest. rewrite Hk, Hd, Hb, Hm, Hcalls.
    pose proof (rtt_loop_abort (parse_command (command b))
                  (parse_perCmdTimeoutMs (perCmdTimeoutMs b))
                  (parse_maxConsecutiveTimeouts (maxConsecutiveTimeouts b))
                  (parse_count (count b)) rest envs rs Hrs k 0%nat 0%nat []
                  Ha Hlt) as Hloop.
    destruct (rtt_loop _ _ _ _ _ _ _ _ _) as [k' l]. cbn [snd] in Hloop.
    subst l. reflexivity.
  - intros Hm Hlt. unfold speedtest. rewrite Hk, Hd, Hb, Hm, Hcalls.
    pose proof (throughput_loop_abort (parse_command (command b))
                  (parse_perCmdTimeoutMs (perCmdTimeoutMs b))
                  (parse_maxConsecutiveTimeouts (maxConsecutiveTimeouts b))
                  (clock env)
                  (Js.add (Js.of_Z (clock env 0))
                          (Js.mul (parse_durationSec (duration b))
                                  (Js.of_Z 1000)))
                  rest envs rs Hrs k 1%nat 0%nat 0%nat 0%nat Ha Hlt) as Hloop.
    destruct (throughput_loop _ _ _ _ _ _ _ _ _ _ _) as [k' l].
    cbn [snd] in Hloop. subst l.
    eexists. eexists. split; [reflexivity|]. split; [reflexivity|].
    repeat split.
  - intros c r H. unfold count_timeout. now rewrite H.
  - intros c r H. unfold count_timeout. now rewrite H.
Qed.

Lemma silent_calls_time_out :
  Forall2 (resolves_with "MEAS:VOLT?" (Js.VNum (Js.of_Z 1000)))
          Scenarios.silent_calls Scenarios.silent_results.
Proof. repeat constructor. Qed.

Lemma silent_calls_abort :
  aborts_at_end (Js.of_Z 3) 0 Scenarios.silent_results.
Proof.
  split; [discriminate|]. split; [reflexivity|].
  intros m Hm. simpl in Hm.
  destruct m as [|[|[|m]]]; try lia; reflexivity.
Qed.

(** Three timeouts in a row with [maxConsecutiveTimeouts = 3] and ten
    iterations requested: three records and the note. *)
Lemma consecutive_timeouts_stop_the_run_witness :
  snd (speedtest Scenarios.idle_server (Scenarios.strict_body "rtt")
                 Scenarios.silent_env)
  = Some (mkResponse 200
            (PRtt "MEAS:VOLT?" (Js.of_Z 10) (Js.of_Z 10)
                  (mkRttStats None None None None 0)
                  [Iter 1 "" None 0 true None; Iter 2 "" None 0 true None;
                   Iter 3 "" None 0 true None;
                   Note "Aborted after 3 consecutive timeouts."])).
Proof.
  refine (proj1 (consecutive_timeouts_stop_the_run Scenarios.idle_server
                   open_socket (Scenarios.strict_body "rtt")
                   Scenarios.silent_env Scenarios.silent_calls
                   [Scenarios.answered 3030 5 "1.0"] Scenarios.silent_results
                   eq_refl eq_refl eq_refl eq_refl
                   silent_calls_time_out silent_calls_abort) eq_refl _).
  intros j Hj. simpl in Hj.
  destruct j as [|[|[|j]]]; try lia; reflexivity.
Defined.

(** C4 as the specification states it fails in the throughput mode: the same
    three timeouts stop the run after three queries, well before the five
    seconds requested, and the response holds no abort note and no
    iteration, only the counters and the note of every throughput
    response. *)
Lemma throughput_abort_leaves_no_note :
  snd (speedtest Scenarios.idle_server (Scenarios.strict_body "throughput")
                 Scenarios.silent_env)
  = Some (mkResponse 200
            (PThroughput "MEAS:VOLT?" (Js.of_Z 10) (Js.of_Z 1000) (Js.of_Z 3)
               (mkThroughput (Js.Fin (inject_Z 5)) (3150 # 1000) 3 0
                  (0 # 1048576) (0 # 3303014400) (3000 # 3150)
                  throughput_note)))
  /\ response_entries
       (mkResponse 200
          (PThroughput "MEAS:VOLT?" (Js.of_Z 10) (Js.of_Z 1000) (Js.of_Z 3)
             (mkThroughput (Js.Fin (inject_Z 5)) (3150 # 1000) 3 0
                (0 # 1048576) (0 # 3303014400) (3000 # 3150)
                throughput_note))) = [].
Proof. split; reflexivity. Qed.

(** ** The configuration *)

(** The three options guarded by [Number.isFinite] are finite and at least
    their floor, whatever the body holds. *)
Lemma finite_or_default_floor floor default v :
  floor <= default ->
  exists q, finite_or_default floor default v = Js.Fin q
            /\ (inject_Z floor <= q)%Q.
Proof.
  intros H. unfold finite_or_default.
  destruct v as [| |bb|[q| | |]|t|t]; simpl;
    try (exists (inject_Z default); split; [reflexivity|];
         unfold Qle; simpl; lia).
  destruct (Qle_bool (inject_Z floor) q) eqn:E.
  - exists q. split; [reflexivity|]. now apply Qle_bool_iff.
  - exists (inject_Z floor). split; [reflexivity|]. apply Qle_refl.
Qed.

(** [count] and [durationSec] are at least 1 when they are numbers, but they
    need not be numbers. *)
Lemma math_max_one n :
  match Js.math_max (Js.of_Z 1) n with
  | Js.Fin q => (1 <= q)%Q
  | Js.NaN => n = Js.NaN
  | Js.PosInf => n = Js.PosInf
  | Js.NegInf => False
  end.
Proof.
  destruct n as [q| | |]; simpl; try reflexivity.
  - destruct (Qle_bool (inject_Z 1) q) eqn:E.
    + now apply Qle_bool_iff in E.
    + apply Qle_refl.
  - apply Qle_refl.
Qed.

(** C8 at its failing input: a [count] or a [duration] that is text without
    digits is not floored.  [parseInt] and [Number] give [NaN],
    [Math.max(1, NaN)] is [NaN], and the run does no iteration although the
    instrument would have answered: the latency response reports a [NaN]
    count and an empty sequence, the throughput response no query. *)
Theorem count_and_duration_escape_the_floor :
  parse_count (Js.VStr "abc") = Js.NaN
  /\ parse_durationSec (Js.VStr "abc") = Js.NaN
  /\ snd (speedtest Scenarios.idle_server Scenarios.text_count_body
                    Scenarios.five_env)
     = Some (mkResponse 200
               (PRtt "MEAS:VOLT?" Js.NaN (Js.of_Z 10)
                     (mkRttStats None None None None 0) []))
  /\ snd (speedtest Scenarios.idle_server Scenarios.text_duration_body
                    Scenarios.slow_env)
     = Some (mkResponse 200
               (PThroughput "MEAS:VOLT?" (Js.of_Z 10) (Js.of_Z 3000)
                  (Js.of_Z 5)
                  (throughput_report_of Js.NaN 0 2000 0 0))).
Proof. repeat split. Qed.

End RoutesFacts.

(* ================================================================== *)
(** * Further properties: the gate and the connection *)
(* ================================================================== *)

Module GateFacts.

Import Correlator.
Import Routes.
Import Lifecycle.

#[local] Arguments call : simpl never.

(** X1: while [tcpBusy] is set, the gated routes ([measure] for
    [/measure/volt] and [/measure/curr], and [speedtest]) turn every request
    away, with 409 "Device busy" on a live socket and with 400 "TCP not
    connected" otherwise, and leave the socket and the flag as they were. *)
Theorem held_gate_turns_requests_away :
  forall sv type command env b senv,
    tcpBusy sv = true ->
    let turned_away :=
      if disconnected sv then Some not_connected else Some device_busy in
    measure type command sv env = (sv, turned_away)
    /\ speedtest sv b senv = (sv, turned_away).
Proof.
  intros sv type command env b senv Hb. unfold disconnected, measure, speedtest.
  rewrite Hb. destruct (tcpClient sv) as [k|]; [|now split].
  destruct (destroyed k); now split.
Qed.

Lemma held_gate_turns_requests_away_witness :
  measure "volt" "MEAS:VOLT?" Scenarios.busy_server
          (Scenarios.answered 0 5 "1.0")
  = (Scenarios.busy_server, Some device_busy)
  /\ speedtest Scenarios.busy_server Scenarios.five_body Scenarios.five_env
     = (Scenarios.busy_server, Some device_busy).
Proof.
  exact (held_gate_turns_requests_away Scenarios.busy_server "volt"
           "MEAS:VOLT?" (Scenarios.answered 0 5 "1.0") Scenarios.five_body
           Scenarios.five_env eq_refl).
Defined.

(** X2: a gated route that finds a live socket and the gate free holds the
    gate exactly as long as it has not answered: [tcpBusy] is set while its
    call is pending and clear after every answer, be it 200, 504 (timeout),
    500 (a rejected call) or 400 (invalid mode). *)
Theorem gate_held_until_answer :
  forall sv k type command env b senv,
    tcpClient sv = Some k -> destroyed k = false -> tcpBusy sv = false ->
    (tcpBusy (fst (measure type command sv env)) = true
     <-> snd (measure type command sv env) = None)
    /\ (tcpBusy (fst (speedtest sv b senv)) = true
        <-> snd (speedtest sv b senv) = None).
Proof.
  intros sv k type command env b senv Hk Hd Hb. split.
  - unfold measure. rewrite Hk, Hd, Hb.
    destruct (call k command (Js.VNum (Js.of_Z 3000)) env) as [k' [ | r | m]];
      cbn [fst snd tcpBusy]; split; intros H; try discriminate; reflexivity.
  - unfold speedtest. rewrite Hk, Hd, Hb.
    destruct (parse_mode (mode b)).
    + destruct (rtt_loop _ _ _ _ _ _ _ _ _) as [k' [res|reason|]];
        cbn [fst snd tcpBusy]; split; intros H; try discriminate; reflexivity.
    + destruct (throughput_loop _ _ _ _ _ _ _ _ _ _ _) as [k' [c|reason|]];
        cbn [fst snd tcpBusy]; split; intros H; try discriminate; reflexivity.
    + cbn [fst snd tcpBusy]; split; intros H; discriminate.
Qed.

(** A measurement that is answered, and one whose reply has not come. *)
Lemma gate_held_until_answer_witness :
  tcpBusy (fst (measure "volt" "MEAS:VOLT?" Scenarios.idle_server
                        (Scenarios.answered 0 5 "1.0"))) = false
  /\ tcpBusy (fst (measure "volt" "MEAS:VOLT?" Scenarios.idle_server
                           (mkEnv 0 None [(3, Data "1.")]))) = true.
Proof.
  split.
  - destruct (tcpBusy (fst (measure "volt" "MEAS:VOLT?" Scenarios.idle_server
                                    (Scenarios.answered 0 5 "1.0")))) eqn:E;
      [|reflexivity].
    apply (proj1 (gate_held_until_answer Scenarios.idle_server open_socket
                    "volt" "MEAS:VOLT?" (Scenarios.answered 0 5 "1.0")
                    Scenarios.five_body Scenarios.five_env
                    eq_refl eq_refl eq_refl)) in E.
    discriminate E.
  - apply (proj1 (gate_held_until_answer Scenarios.idle_server open_socket
                    "volt" "MEAS:VOLT?" (mkEnv 0 None [(3, Data "1.")])
                    Scenarios.five_body Scenarios.five_env
                    eq_refl eq_refl eq_refl)).
    reflexivity.
Defined.

(** X3: without a live socket (none, or a destroyed one) the three routes
    that use the socket answer 400 "TCP not connected" before anything else:
    whatever the gate and the request are, nothing is written and the state
    is unchanged. *)
Theorem no_socket_no_io :
  forall sv sb env type command b senv,
    disconnected sv = true ->
    send sv sb env = (sv, Some not_connected)
    /\ measure type command sv env = (sv, Some not_connected)
    /\ speedtest sv b senv = (sv, Some not_connected).
Proof.
  intros sv sb env type command b senv H.
  unfold disconnected in H. unfold send, measure, speedtest.
  destruct (tcpClient sv) as [k|]; [rewrite H|]; repeat split.
Qed.

Lemma no_socket_no_io_witness :
  send (mkServer None true) Scenarios.query_body
       (Scenarios.answered 0 5 "1.0")
  = (mkServer None true, Some not_connected)
  /\ measure "volt" "MEAS:VOLT?" (mkServer None true)
             (Scenarios.answered 0 5 "1.0")
     = (mkServer None true, Some not_connected)
  /\ speedtest (mkServer None true) Scenarios.five_body Scenarios.five_env
     = (mkServer None true, Some not_connected).
Proof.
  exact (no_socket_no_io (mkServer None true) Scenarios.query_body
           (Scenarios.answered 0 5 "1.0") "volt" "MEAS:VOLT?"
           Scenarios.five_body Scenarios.five_env eq_refl).
Defined.

(** X4: [POST /close] always leaves the server without a live socket once it
    has answered, and it answers [ok] also when there was nothing to close;
    closing again changes nothing.  After it, the routes that use the socket
    answer 400 "TCP not connected". *)
Theorem close_disconnects :
  forall sv sb env type command b senv,
    let sv' := fst (close sv true) in
    snd (close sv true) = Some Ok
    /\ disconnected sv' = true
    /\ close sv' true = (sv', Some Ok)
    /\ send sv' sb env = (sv', Some not_connected)
    /\ measure type command sv' env = (sv', Some not_connected)
    /\ speedtest sv' b senv = (sv', Some not_connected).
Proof.
  intros sv sb env type command b senv sv'.
  assert (Hd : disconnected sv' = true).
  { unfold sv', close, disconnected.
    destruct (tcpClient sv) as [k|] eqn:Hk; cbn [fst tcpClient];
      [|now rewrite Hk].
    destruct (destroyed k) eqn:Hdk; cbn [fst tcpClient];
      [now rewrite Hk|reflexivity]. }
  split.
  { unfold close. destruct (tcpClient sv) as [k|]; [|reflexivity].
    destruct (destroyed k); reflexivity. }
  split; [exact Hd|]. split.
  { unfold close. unfold disconnected in Hd.
    destruct (tcpClient sv') as [k|]; [now rewrite Hd|reflexivity]. }
  unfold disconnected in Hd. unfold send, measure, speedtest.
  destruct (tcpClient sv') as [k|]; [rewrite Hd|]; repeat split.
Qed.



End GateFacts.

(* ================================================================== *)
(** * Further properties of the correlator *)
(* ================================================================== *)

Module CallFacts.

Import Correlator.
Import Routes.
Import CorrelatorFacts.

#[local] Arguments call : simpl never.

(** No event makes a handler write to the socket. *)
Lemma step_writes_nothing s te e :
  written (sock (step s (te, e))) = written (sock s).
Proof.
  destruct s as [[ds ld le lc w] bf st fi ti rs pr].
  destruct e as [c|m| | |[m|]]; unfold_handlers; simpl.
  - destruct ld; simpl; [|reflexivity].
    destruct (Js.includes_newline (bf ++ c)); simpl; [|reflexivity].
    destruct ti; reflexivity.
  - destruct le; simpl; [|reflexivity].
    destruct fi; simpl; [reflexivity|]. destruct ti; reflexivity.
  - destruct lc; simpl; [|reflexivity].
    destruct fi; simpl; [reflexivity|]. destruct ti; reflexivity.
  - destruct ti; simpl; try reflexivity. destruct fi; reflexivity.
  - destruct fi; simpl; [reflexivity|]. destruct ti; reflexivity.
  - reflexivity.
Qed.

Lemma run_writes_nothing trace : forall s,
  written (sock (run s trace)) = written (sock s).
Proof.
  induction trace as [|[te e] trace IH]; intros s; simpl; [reflexivity|].
  rewrite IH. apply step_writes_nothing.
Qed.

Lemma endsWith_newline_app_nl s : Js.endsWith_newline (s ++ Js.nl) = true.
Proof.
  induction s as [|c s IH]; [reflexivity|].
  simpl. destruct (s ++ Js.nl) eqn:E; [|exact IH].
  destruct s; discriminate.
Qed.

(** X6: a call whose write returns sends exactly one payload, at its start:
    the command itself when it ends with a line terminator, the command and
    one terminator otherwise.  The payload always ends with a terminator, and
    no event of the call writes anything more. *)
Theorem one_terminated_write_per_call :
  forall k command tmo t0 trace,
    exists payload,
      written (sock (run (sendCommandOnceOnSocket k command tmo t0 None)
                         trace))
      = (written k ++ [payload])%list
      /\ Js.endsWith_newline payload = true
      /\ payload = (if Js.endsWith_newline command then command
                    else command ++ Js.nl).
Proof.
  intros k command tmo t0 trace.
  exists (if Js.endsWith_newline command then command else command ++ Js.nl).
  rewrite run_writes_nothing. split; [reflexivity|]. split; [|reflexivity].
  destruct (Js.endsWith_newline command) eqn:E; [exact E|].
  apply endsWith_newline_app_nl.
Qed.

(** The state of a call whose write has thrown. *)
Lemma thrown_step s te e :
  closed s -> timer s = TimerUninit ->
  closed (step s (te, e)) /\ timer (step s (te, e)) = TimerUninit
  /\ settled (step s (te, e)) = settled s
  /\ resolves (step s (te, e)) = resolves s.
Proof.
  intros (Hf & Hd) Ht.
  destruct s as [[ds ld le lc w] bf st fi ti rs pr].
  unfold deactivated in Hd; simpl in *; subst.
  destruct ld, le, lc; try discriminate.
  destruct e as [c|m| | |[m|]]; unfold closed, deactivated; unfold_handlers;
    simpl; repeat split.
Qed.

Lemma thrown_run trace : forall s,
  closed s -> timer s = TimerUninit ->
  closed (run s trace) /\ timer (run s trace) = TimerUninit
  /\ settled (run s trace) = settled s
  /\ resolves (run s trace) = resolves s.
Proof.
  induction trace as [|[te e] trace IH]; intros s Hc Ht; simpl.
  - repeat split; try apply Hc; assumption.
  - destruct (thrown_step s te e Hc Ht) as (Hc' & Ht' & Hp & Hr).
    destruct (IH _ Hc' Ht') as (Hc'' & Ht'' & Hp' & Hr').
    repeat split; try apply Hc''; congruence.
Qed.

(** X7: when [socket.write] throws, the [catch] of the executor cannot
    resolve the call with the error of the write.  Its [cleanup] reads
    [timer] before the declaration of [timer] has run, so the executor
    throws and the promise is rejected with that [ReferenceError]; the
    listeners are already removed, no timer is ever armed, nothing was
    written, and no later event changes the outcome.  A measurement route
    answers 500 with the message of the [ReferenceError] and releases the
    gate. *)
Theorem thrown_write_rejects_the_call :
  forall k command tmo t0 msg trace,
    let s := run (sendCommandOnceOnSocket k command tmo t0 (Some msg)) trace in
    settled s = Rejected tdz_message
    /\ resolves s = []
    /\ deactivated s = true
    /\ timer s = TimerUninit
    /\ written (sock s) = written k
    /\ forall type sv,
        tcpClient sv = Some k -> destroyed k = false -> tcpBusy sv = false ->
        snd (measure type command sv (mkEnv t0 (Some msg) trace))
        = Some (mkResponse 500 (PError tdz_message))
        /\ tcpBusy (fst (measure type command sv (mkEnv t0 (Some msg) trace)))
           = false.
Proof.
  intros k command tmo t0 msg trace s.
  destruct (thrown_write_closed k command tmo t0 msg) as (Hc & Hr & Hp).
  assert (Ht : timer (sendCommandOnceOnSocket k command tmo t0 (Some msg))
               = TimerUninit) by reflexivity.
  destruct (thrown_run trace _ Hc Ht) as (Hc' & Ht' & Hp' & Hr').
  fold s in Hc', Ht', Hp', Hr'.
  split; [congruence|]. split; [congruence|]. split; [apply Hc'|].
  split; [exact Ht'|]. split.
  { unfold s. rewrite run_writes_nothing. reflexivity. }
  intros type sv Hk Hd Hb. unfold measure. rewrite Hk, Hd, Hb.
  unfold call. cbn [at_ms write_throws events].
  destruct (thrown_write_closed k command (Js.VNum (Js.of_Z 3000)) t0 msg)
    as (Hc3 & _ & Hp3).
  destruct (closed_run trace _ Hc3) as (_ & _ & Hp3').
  rewrite Hp3', Hp3. split; reflexivity.
Qed.

(** X7 at an instance: a write that throws "EPIPE" is answered with the
    message of the [ReferenceError], not with "EPIPE". *)
Lemma thrown_write_rejects_the_call_witness :
  snd (measure "volt" "MEAS:VOLT?" Scenarios.idle_server
               (mkEnv 0 (Some "EPIPE") [(3000, TimerExpiry)]))
  = Some (mkResponse 500 (PError tdz_message)).
Proof.
  destruct (thrown_write_rejects_the_call open_socket "MEAS:VOLT?"
              (Js.VNum (Js.of_Z 3000)) 0 "EPIPE" [(3000, TimerExpiry)])
    as (_ & _ & _ & _ & _ & H).
  exact (proj1 (H "volt" Scenarios.idle_server eq_refl eq_refl eq_refl)).
Defined.

Lemma running_resolved trace : forall b s r,
  running b s -> settled (run s trace) = Resolved r ->
  exists b' te e, resolution b' (start s) te e = Some r.
Proof.
  induction trace as [|[te e] trace IH]; intros b s r Hrun Hset; simpl in Hset.
  - destruct Hrun as (_ & _ & _ & _ & _ & _ & _ & Hp & _). congruence.
  - destruct (quiet e) eqn:Hq.
    + destruct (running_quiet b s te e Hrun Hq) as (Hrun' & Hst).
      destruct (IH _ _ _ Hrun' Hset) as (b' & te' & e' & H).
      rewrite Hst in H. eauto.
    + assert (exists r0, resolution b (start s) te e = Some r0) as (r0 & Hres).
      { destruct Hrun as (_ & _ & _ & _ & _ & _ & _ & _ & Hn).
        destruct e as [c|m| | |[m|]]; simpl in *; try discriminate; eauto.
        apply negb_false_iff in Hq.
        rewrite includes_newline_app, Hq, orb_true_r. eauto. }
      destruct (running_ends b s te e r0 Hrun Hres) as (_ & Hp & Hc).
      destruct (closed_run trace _ Hc) as (_ & _ & Hp').
      rewrite Hp', Hp in Hset. injection Hset as <-. eauto.
Qed.

Lemma length_trim_start l :
  (List.length (Js.trim_start_chars l) <= List.length l)%nat.
Proof.
  induction l as [|c l IH]; simpl; [lia|].
  destruct (Js.is_ws c); simpl; lia.
Qed.

Lemma length_of_chars l :
  String.length (string_of_list_ascii l) = List.length l.
Proof. induction l as [|c l IH]; simpl; [reflexivity|now rewrite IH]. Qed.

Lemma length_to_chars s :
  List.length (list_ascii_of_string s) = String.length s.
Proof. induction s as [|c s IH]; simpl; [reflexivity|now rewrite IH]. Qed.

Lemma length_trim s : (String.length (Js.trim s) <= String.length s)%nat.
Proof.
  unfold Js.trim, Js.trim_chars.
  rewrite length_of_chars, length_rev, <- length_to_chars.
  pose proof (length_trim_start
                (rev (Js.trim_start_chars (list_ascii_of_string s)))) as H1.
  pose proof (length_trim_start (list_ascii_of_string s)) as H2.
  rewrite length_rev in H1. lia.
Qed.

Lemma newline_has_length s :
  Js.includes_newline s = true -> (1 <= String.length s)%nat.
Proof. destruct s; simpl; [discriminate|lia]. Qed.

(** X8: whatever a call resolves with, [rtt_ms] is [null] exactly when
    [timeout] is set, a timeout carries no [error], the trimmed [raw] text is
    never longer than [bytes] (which counts the whole buffer, terminator
    included), and a result with neither [timeout] nor [error] has at least
    one byte. *)
Theorem resolved_result_is_consistent :
  forall k command tmo t0 w trace r,
    settled (run (sendCommandOnceOnSocket k command tmo t0 w) trace)
    = Resolved r ->
    (timeout r = true <-> rtt_ms r = None)
    /\ (timeout r = true -> error r = None)
    /\ (String.length (raw r) <= bytes r)%nat
    /\ (timeout r = false -> error r = None -> (1 <= bytes r)%nat).
Proof.
  intros k command tmo t0 [msg|] trace r Hset.
  - destruct (thrown_write_closed k command tmo t0 msg) as (Hc & _ & Hp).
    destruct (closed_run trace _ Hc) as (_ & _ & Hp'). congruence.
  - destruct (running_resolved trace _ _ _ (executor_running k command tmo t0)
                Hset) as (b & te & e & Hres).
    destruct e as [c|m| | |[m|]]; simpl in Hres; try discriminate.
    + destruct (Js.includes_newline (b ++ c)) eqn:E; [|discriminate].
      injection Hres as <-. simpl. repeat split; try discriminate.
      * apply length_trim.
      * intros _ _. now apply newline_has_length.
    + injection Hres as <-. simpl. repeat split; try discriminate.
      apply length_trim.
    + injection Hres as <-. simpl. repeat split; try discriminate.
      apply length_trim.
    + injection Hres as <-. simpl. repeat split; try discriminate.
      apply length_trim.
    + injection Hres as <-. simpl. repeat split; try discriminate.
      apply length_trim.
Qed.

Lemma resolved_result_is_consistent_witness :
  (String.length "1.0" <= 5)%nat.
Proof.
  exact (proj1 (proj2 (proj2
    (resolved_result_is_consistent open_socket "MEAS:VOLT?"
       (Js.VNum (Js.of_Z 3000)) 0 None
       [(4, Data (" 1.0" ++ Js.nl))]
       (mkResult "1.0" (Some 4) 5 false None) eq_refl)))).
Defined.

End CallFacts.

(* ================================================================== *)
(** * Further properties of the speed test *)
(* ================================================================== *)

Module HarnessFacts.

Import Correlator.
Import Routes.
Import RoutesFacts.

#[local] Arguments call : simpl never.
#[local] Arguments Js.ge : simpl never.
#[local] Arguments Js.lt : simpl never.
#[local] Arguments Js.of_nat : simpl never.




Lemma successes_app l1 l2 :
  successes (l1 ++ l2) = (successes l1 ++ successes l2)%list.
Proof. apply filter_app. Qed.

Lemma totalBytes_of_app l1 l2 :
  totalBytes_of (l1 ++ l2) = (totalBytes_of l1 + totalBytes_of l2)%nat.
Proof.
  rewrite !totalBytes_of_sum, map_app, list_sum_app. reflexivity.
Qed.

(** X10: the abort note that the latency loop pushes into [results] does not
    disturb the statistics computed from [results]: with or without a note,
    anywhere in the sequence, all five figures are the same. *)
Theorem note_leaves_statistics_alone :
  forall l1 text l2,
    rtt_stats_of (l1 ++ Note text :: l2) = rtt_stats_of (l1 ++ l2).
Proof.
  intros l1 text l2.
  assert (Hs : successes (l1 ++ Note text :: l2) = successes (l1 ++ l2)).
  { rewrite !successes_app. reflexivity. }
  assert (Hb : totalBytes_of (l1 ++ Note text :: l2)
               = totalBytes_of (l1 ++ l2)).
  { rewrite !totalBytes_of_app, !totalBytes_of_sum. reflexivity. }
  unfold rtt_stats_of, avg_of, min_of, max_of. rewrite Hs, Hb. reflexivity.
Qed.







Lemma Qle_bool_inject a b :
  Qle_bool (inject_Z a) (inject_Z b) = (a <=? b).
Proof. unfold Qle_bool, inject_Z; simpl. now rewrite !Z.mul_1_r. Qed.

Lemma Qeq_bool_inject a b :
  Qeq_bool (inject_Z a) (inject_Z b) = (a =? b).
Proof.
  destruct (a =? b) eqn:E.
  - apply Z.eqb_eq in E. subst. apply Qeq_eq_bool. reflexivity.
  - destruct (Qeq_bool (inject_Z a) (inject_Z b)) eqn:E'; [|reflexivity].
    apply Qeq_bool_iff in E'. unfold Qeq, inject_Z in E'; simpl in E'.
    apply Z.eqb_neq in E. lia.
Qed.

Lemma math_max_inject a b :
  Js.math_max (Js.of_Z a) (Js.of_Z b) = Js.of_Z (Z.max a b).
Proof.
  unfold Js.of_Z; simpl. rewrite Qle_bool_inject.
  destruct (a <=? b) eqn:E.
  - apply Z.leb_le in E. now rewrite Z.max_r.
  - apply Z.leb_gt in E. now rewrite Z.max_l by lia.
Qed.

Lemma parseInt10_of_integer z :
  z <> 0 -> Z.abs z < 10 ^ 21 ->
  Js.parseInt10_number (Js.Fin (inject_Z z)) = Js.of_Z z.
Proof.
  intros Hz Hsmall. unfold Js.parseInt10_number.
  change 0%Q with (inject_Z 0). rewrite Qeq_bool_inject.
  destruct (z =? 0) eqn:E; [apply Z.eqb_eq in E; contradiction|].
  change (Qabs (inject_Z z)) with (inject_Z (Z.abs z)).
  rewrite Qle_bool_inject.
  destruct (10 ^ 21 <=? Z.abs z) eqn:E1; [apply Z.leb_le in E1; lia|].
  assert (E2 : Qle_bool (1 # 1000000) (inject_Z (Z.abs z)) = true).
  { apply Qle_bool_iff. unfold Qle, inject_Z; simpl. lia. }
  rewrite E2, Qfloor_Z, Qle_bool_inject. f_equal.
  unfold Js.signed. destruct (z <=? 0) eqn:E3.
  - apply Z.leb_le in E3. unfold Js.of_Z. f_equal. f_equal. lia.
  - apply Z.leb_gt in E3. unfold Js.of_Z. f_equal. f_equal. lia.
Qed.

(** X13: how [count] and [duration] are read.  A falsy value (absent,
    [null], [false], [0], the empty text, [NaN]) gives the default, 10
    iterations or 5 seconds: a request for zero iterations runs ten.  An
    integer other than zero (below [1e21] in size) gives itself when it is
    at least 1 and gives 1 otherwise. *)
Theorem count_and_duration_defaults :
  (forall v, Js.truthy v = false ->
             parse_count v = Js.of_Z 10 /\ parse_durationSec v = Js.of_Z 5)
  /\ (forall z, z <> 0 -> Z.abs z < 10 ^ 21 ->
                parse_count (Js.VNum (Js.of_Z z)) = Js.of_Z (Z.max 1 z)
                /\ parse_durationSec (Js.VNum (Js.of_Z z))
                   = Js.of_Z (Z.max 1 z)).
Proof.
  split.
  - intros v Hv. unfold parse_count, parse_durationSec, Js.or_else.
    rewrite Hv. split; reflexivity.
  - intros z Hz Hsmall.
    assert (Ht : Js.truthy (Js.VNum (Js.of_Z z)) = true).
    { unfold Js.of_Z; simpl. change 0%Q with (inject_Z 0).
      rewrite Qeq_bool_inject.
      destruct (z =? 0) eqn:E; [apply Z.eqb_eq in E; contradiction|].
      reflexivity. }
    unfold parse_count, parse_durationSec, Js.or_else. rewrite Ht.
    cbn [Js.parseInt10 Js.to_number]. unfold Js.of_Z at 2.
    rewrite parseInt10_of_integer by assumption.
    split; apply math_max_inject.
Qed.

Lemma count_and_duration_defaults_witness :
  parse_count (Js.VNum (Js.of_Z 0)) = Js.of_Z 10
  /\ parse_count (Js.VNum (Js.of_Z (-3))) = Js.of_Z 1
  /\ parse_durationSec (Js.VNum (Js.of_Z 30)) = Js.of_Z 30.
Proof.
  destruct count_and_duration_defaults as (Hfalsy & Hint).
  split; [exact (proj1 (Hfalsy (Js.VNum (Js.of_Z 0)) eq_refl))|].
  split.
  - exact (proj1 (Hint (-3) ltac:(discriminate) ltac:(reflexivity))).
  - exact (proj2 (Hint 30 ltac:(discriminate) ltac:(reflexivity))).
Defined.

(** X14: the three options read through [Number.isFinite] are always finite
    and at least their floor (0, 100 and 1); and every value that is not a
    finite number, a numeric text such as "500" included, gives the default
    (10, 3000 and 5). *)
Theorem guarded_options_are_floored :
  forall v,
    (exists q, parse_minDelayMs v = Js.Fin q /\ (0 <= q)%Q)
    /\ (exists q, parse_perCmdTimeoutMs v = Js.Fin q /\ (100 <= q)%Q)
    /\ (exists q, parse_maxConsecutiveTimeouts v = Js.Fin q /\ (1 <= q)%Q)
    /\ (Js.isFinite v = false ->
        parse_minDelayMs v = Js.of_Z 10
        /\ parse_perCmdTimeoutMs v = Js.of_Z 3000
        /\ parse_maxConsecutiveTimeouts v = Js.of_Z 5).
Proof.
  intros v. split; [|split; [|split]].
  - apply (finite_or_default_floor 0 10 v). lia.
  - apply (finite_or_default_floor 100 3000 v). lia.
  - apply (finite_or_default_floor 1 5 v). lia.
  - intros H. unfold parse_minDelayMs, parse_perCmdTimeoutMs,
      parse_maxConsecutiveTimeouts, finite_or_default. rewrite H.
    repeat split.
Qed.

Lemma guarded_options_are_floored_witness :
  parse_perCmdTimeoutMs (Js.VStr "500") = Js.of_Z 3000.
Proof.
  destruct (guarded_options_are_floored (Js.VStr "500")) as (_ & _ & _ & H).
  exact (proj1 (proj2 (H eq_refl))).
Defined.

End HarnessFacts.

(* ================================================================== *)
(** * Further properties of the endpoints *)
(* ================================================================== *)

Module EndpointFacts.

Import Correlator.
Import Routes.
Import CorrelatorFacts.

(** X15: [POST /send] without an expected reply only writes.  With
    [appendNewline] truthy (the default) the payload is the data and one line
    terminator, also when the data ends with a terminator already, and no
    listener is put on the socket; the answer follows the callback of the
    write: 200 with the data sent, 500 with the error, nothing while the
    callback has not run.  The same request with an expected reply writes
    the data as it is when it ends with a terminator. *)
Theorem send_without_reply_only_writes :
  forall sv k text an tmo env,
    tcpClient sv = Some k -> destroyed k = false ->
    write_throws env = None ->
    Js.truthy (default_to (Js.VBool true) an) = true ->
    let quiet_send := mkSendBody (Some text) an (Js.VBool false) tmo in
    let query := mkSendBody (Some text) an Js.VUndefined tmo in
    fst (send sv quiet_send env)
    = mkServer (Some (add_written (text ++ Js.nl) k)) (tcpBusy sv)
    /\ snd (send sv quiet_send env)
       = match write_callback (events env) with
         | None => None
         | Some None => Some (mkResponse 200 (PSent text))
         | Some (Some msg) => Some (mkResponse 500 (PError msg))
         end
    /\ exists k',
        tcpClient (fst (send sv query env)) = Some k'
        /\ written k'
           = (written k ++ [if Js.endsWith_newline text then text
                            else (text ++ Js.nl)%string])%list.
Proof.
  intros sv k text an tmo env Hk Hd Hw Han quiet_send query.
  split; [|split].
  - unfold send. rewrite Hk, Hd. cbn [data expectResponse appendNewline
      quiet_send default_to Js.truthy negb]. rewrite Han.
    unfold writeRaw. rewrite Hw.
    destruct (write_callback (events env)) as [[m|]|]; reflexivity.
  - unfold send. rewrite Hk, Hd. cbn [data expectResponse appendNewline
      quiet_send default_to Js.truthy negb]. rewrite Han.
    unfold writeRaw. rewrite Hw.
    destruct (write_callback (events env)) as [[m|]|]; reflexivity.
  - unfold send. rewrite Hk, Hd. cbn [data expectResponse appendNewline
      query default_to Js.truthy negb send_perCmdTimeoutMs].
    unfold call. rewrite Hw.
    set (s := run _ (events env)).
    exists (sock s).
    split.
    + destruct (settled s); reflexivity.
    + unfold s. rewrite CallFacts.run_writes_nothing. reflexivity.
Qed.

Lemma send_without_reply_only_writes_witness :
  fst (send Scenarios.idle_server
            (mkSendBody (Some ("OUTP ON" ++ Js.nl)) Js.VUndefined
                        (Js.VBool false) Js.VUndefined)
            (mkEnv 0 None [(1, WriteCallback None)]))
  = mkServer (Some (add_written ("OUTP ON" ++ Js.nl ++ Js.nl) open_socket))
             false.
Proof.
  exact (proj1 (send_without_reply_only_writes Scenarios.idle_server
                  open_socket ("OUTP ON" ++ Js.nl) Js.VUndefined
                  Js.VUndefined (mkEnv 0 None [(1, WriteCallback None)])
                  eq_refl eq_refl eq_refl eq_refl)).
Defined.

(** X16: the measurement endpoints do not look at the [error] of a result.
    A call that ends by an error or the close of the socket, or by a failed
    write, is answered 200 like a reply: with the trimmed text received so
    far, the value read from it, and the time elapsed.  When nothing was
    received the value is the number 0, since [Number('')] is 0. *)
Theorem failed_measurement_is_answered_as_a_value :
  forall type command sv k t0 pre te e post msg,
    tcpClient sv = Some k -> destroyed k = false -> tcpBusy sv = false ->
    Forall (fun x => quiet (snd x) = true) pre ->
    failure e = Some msg ->
    snd (measure type command sv (mkEnv t0 None (pre ++ (te, e) :: post)))
    = Some (mkResponse 200
              (PMeasure type (Js.trim (received pre))
                        (measured_value (Js.trim (received pre)))
                        (Some (te - t0)) (Js.byteLength (received pre))))
    /\ (received pre = "" ->
        measured_value (Js.trim (received pre)) = Js.VNum (Js.of_Z 0)).
Proof.
  intros type command sv k t0 pre te e post msg Hk Hd Hb Hq Hf.
  split; [|intros ->; reflexivity].
  assert (Hres : resolution (received pre) t0 te e
                 = Some (mkResult (Js.trim (received pre)) (Some (te - t0))
                                  (Js.byteLength (received pre)) false
                                  (Some msg))).
  { destruct e as [c|m| | |[m|]]; simpl in Hf; try discriminate;
      injection Hf as <-; reflexivity. }
  destruct (correlate_resolves_once_lemma k command (Js.VNum (Js.of_Z 3000))
              t0 pre te e _ Hq Hres) as (_ & Hp & Hc).
  destruct (closed_run post _ Hc) as (_ & _ & Hp').
  unfold measure. rewrite Hk, Hd, Hb. unfold call.
  cbn [at_ms write_throws events].
  replace (pre ++ (te, e) :: post)%list
    with ((pre ++ [(te, e)]) ++ post)%list
    by (rewrite <- app_assoc; reflexivity).
  rewrite run_app, Hp', Hp. reflexivity.
Qed.

(** A socket that closes before anything arrives: 200 with the value 0. *)
Lemma failed_measurement_is_answered_as_a_value_witness :
  snd (measure "volt" "MEAS:VOLT?" Scenarios.idle_server
               (mkEnv 0 None ([] ++ (12, SockClose) :: [])))
  = Some (mkResponse 200
            (PMeasure "volt" "" (Js.VNum (Js.of_Z 0)) (Some 12) 0)).
Proof.
  exact (proj1 (failed_measurement_is_answered_as_a_value "volt" "MEAS:VOLT?"
                  Scenarios.idle_server open_socket 0 [] 12 SockClose []
                  "socket closed" eq_refl eq_refl eq_refl
                  (Forall_nil _) eq_refl)).
Defined.

(** X17: where [POST /udp/send] sends.  After a bind, the host and the port
    of a request each replace the remembered remote only when truthy (a
    port 0 or an empty host falls back on it); the datagram goes to the
    resulting pair when both are truthy and the request is refused with 400
    otherwise.  A second bind is refused, and after [POST /udp/close] every
    send is refused as not bound. *)
Theorem udp_destination_falls_back_on_remote :
  forall remoteHost remotePort host port failed,
    let st := fst (Udp.bind (Udp.mkState false None) remoteHost remotePort) in
    let h := if Js.truthy host then host
             else default_to (Js.VStr "127.0.0.1") remoteHost in
    let p := if Js.truthy port then port
             else default_to (Js.VNum (Js.of_Z 9200)) remotePort in
    Udp.bind st remoteHost remotePort
    = (st, Udp.Refused 400 "UDP already bound")
    /\ fst (Udp.send st host port failed)
       = (if Js.truthy h && Js.truthy p then Some (h, p) else None)
    /\ (Js.truthy h && Js.truthy p = false ->
        snd (Udp.send st host port failed)
        = Udp.Refused 400 "No destination host/port")
    /\ (Js.truthy h && Js.truthy p = true ->
        snd (Udp.send st host port failed)
        = match failed with
          | Some msg => Udp.Refused 500 msg
          | None => Udp.Ok
          end)
    /\ Udp.send (fst (Udp.close st)) host port failed
       = (None, Udp.Refused 400 "UDP not bound").
Proof.
  intros rh rp host port failed st h p.
  split; [reflexivity|].
  unfold st, Udp.send, Udp.bind, Udp.merged. cbn [Udp.bound fst negb
    Udp.defaultRemote option_map snd].
  fold h. fold p.
  destruct (Js.truthy h), (Js.truthy p); cbn [negb orb andb];
    repeat split; try discriminate; destruct failed; reflexivity.
Qed.

Lemma udp_destination_falls_back_on_remote_witness :
  Udp.send (fst (Udp.bind (Udp.mkState false None) Js.VUndefined
                          Js.VUndefined))
           (Js.VStr "10.0.0.7") (Js.VNum (Js.of_Z 0)) None
  = (Some (Js.VStr "10.0.0.7", Js.VNum (Js.of_Z 9200)), Udp.Ok).
Proof.
  destruct (udp_destination_falls_back_on_remote Js.VUndefined Js.VUndefined
              (Js.VStr "10.0.0.7") (Js.VNum (Js.of_Z 0)) None)
    as (_ & Hdest & _ & Hok & _).
  rewrite (surjective_pairing (Udp.send _ _ _ _)).
  rewrite Hdest, (Hok eq_refl). reflexivity.
Defined.

End EndpointFacts.

(* ================================================================== *)
(** * Further properties: the mode of a speed test, the script launcher *)
(* ================================================================== *)

Module ModeFacts.

Import Correlator.
Import Routes.

Lemma lower_char_idem c : Js.lower_char (Js.lower_char c) = Js.lower_char c.
Proof.
  unfold Js.lower_char.
  destruct ((65 <=? nat_of_ascii c) && (nat_of_ascii c <=? 90))%nat eqn:E;
    [|now rewrite E].
  pose proof E as E0.
  apply andb_true_iff in E0. destruct E0 as (E1 & E2).
  apply Nat.leb_le in E1. apply Nat.leb_le in E2.
  rewrite nat_ascii_embedding by lia.
  destruct ((65 <=? nat_of_ascii c + 32) && (nat_of_ascii c + 32 <=? 90))%nat
    eqn:E'; [|reflexivity].
  apply andb_true_iff in E'. destruct E' as (_ & E').
  apply Nat.leb_le in E'. lia.
Qed.

Lemma toLowerCase_idem s :
  Js.toLowerCase (Js.toLowerCase s) = Js.toLowerCase s.
Proof.
  induction s as [|c s IH]; [reflexivity|].
  simpl. now rewrite lower_char_idem, IH.
Qed.

Lemma toLowerCase_empty s :
  String.eqb (Js.toLowerCase s) "" = String.eqb s "".
Proof. destruct s; reflexivity. Qed.

(** X18: the mode of a speed test.  A falsy [mode] means the latency mode;
    the two names are matched without regard to case; and a [mode] that is
    any other text is refused with 400 on an idle server: nothing is sent and
    the server is left as it was, gate released. *)
Theorem mode_is_matched_without_case :
  (forall v, Js.truthy v = false -> parse_mode v = ModeRtt)
  /\ (forall s, parse_mode (Js.VStr (Js.toLowerCase s))
                = parse_mode (Js.VStr s))
  /\ (forall sv k b env text,
         tcpClient sv = Some k -> destroyed k = false -> tcpBusy sv = false ->
         mode b = Js.VStr text ->
         parse_mode (Js.VStr text) = ModeInvalid ->
         speedtest sv b env
         = (sv, Some (mkResponse 400 (PError invalid_mode)))).
Proof.
  split; [|split].
  - intros v H. unfold parse_mode, Js.or_else. now rewrite H.
  - intros s. unfold parse_mode, Js.or_else. cbn [Js.truthy].
    rewrite toLowerCase_empty.
    destruct (String.eqb s ""); cbn [negb Js.to_string]; [reflexivity|].
    now rewrite toLowerCase_idem.
  - intros sv k b env text Hk Hd Hb Ht Hm. unfold speedtest.
    rewrite Hk, Hd, Hb, Ht, Hm. destruct sv as [c f]. simpl in *. now subst.
Qed.

Lemma mode_is_matched_without_case_witness :
  parse_mode (Js.VStr "Throughput") = ModeThroughput
  /\ speedtest Scenarios.idle_server (Scenarios.strict_body "burst")
               Scenarios.silent_env
     = (Scenarios.idle_server, Some (mkResponse 400 (PError invalid_mode))).
Proof.
  destruct mode_is_matched_without_case as (_ & Hcase & Hbad).
  split.
  - rewrite <- Hcase. reflexivity.
  - exact (Hbad Scenarios.idle_server open_socket
                (Scenarios.strict_body "burst") Scenarios.silent_env
                "burst" eq_refl eq_refl eq_refl eq_refl eq_refl).
Defined.

End ModeFacts.

Module TerminalFacts.

Import Terminal.

Lemma launch_first_working m fullPath : forall before cmd args after log,
  Forall (fun a => trySpawn m (fst a) (snd a) = false) before ->
  trySpawn m cmd args = true ->
  launch m fullPath (before ++ (cmd, args) :: after) log
  = ((log ++ map (fun a => Spawn (fst a) (snd a)) before
          ++ [Spawn cmd args])%list,
     Launched fullPath cmd args).
Proof.
  induction before as [|[c a] before IH]; intros cmd args after log Hall Hok.
  - simpl. now rewrite Hok.
  - inversion Hall as [|x l Hx Hl]; subst. simpl in Hx. simpl.
    rewrite Hx, (IH _ _ _ _ Hl Hok), <- app_assoc. reflexivity.
Qed.

Lemma launch_none_working m fullPath : forall l log,
  Forall (fun a => trySpawn m (fst a) (snd a) = false) l ->
  launch m fullPath l log
  = ((log ++ map (fun a => Spawn (fst a) (snd a)) l)%list,
     Failed "Failed to launch terminal to run the script").
Proof.
  induction l as [|[c a] l IH]; intros log Hall.
  - simpl. now rewrite app_nil_r.
  - inversion Hall as [|x l' Hx Hl]; subst. simpl in Hx. simpl.
    rewrite Hx, (IH _ Hl), <- app_assoc. reflexivity.
Qed.

Section Path.

Variable extname : string -> string.
Variable resolve : string -> string -> string.

(** X19: off Windows the launcher does nothing at all; when the script
    cannot be written it reports the error of the write and starts no
    terminal.  The script is written under the file name given when that
    name has an extension, whatever [usePowershell] is, and under the name
    with ".ps1" or ".bat" added when it has none. *)
Theorem launcher_stops_before_spawning :
  forall m content fileName usePowershell dir,
    (platform m <> "win32" ->
     createAndOpenWindowsScript extname resolve m content fileName
                                usePowershell dir
     = ([], Failed "Not running on Windows"))
    /\ (forall msg,
           platform m = "win32" -> write_error m = Some msg ->
           createAndOpenWindowsScript extname resolve m content fileName
                                      usePowershell dir
           = ([WriteFile (resolve dir (finalName extname fileName
                                                  usePowershell)) content],
              Failed ("Failed to write script: " ++ msg)))
    /\ (extname fileName <> "" ->
        finalName extname fileName usePowershell = fileName)
    /\ (extname fileName = "" ->
        finalName extname fileName usePowershell
        = fileName ++ (if usePowershell then ".ps1" else ".bat")).
Proof.
  intros m content fileName ps dir. split; [|split; [|split]].
  - intros H. unfold createAndOpenWindowsScript.
    destruct (String.eqb (platform m) "win32") eqn:E; [|reflexivity].
    apply String.eqb_eq in E. contradiction.
  - intros msg Hp Hw. unfold createAndOpenWindowsScript.
    rewrite Hp, Hw. reflexivity.
  - intros H. unfold finalName.
    destruct (String.eqb (extname fileName) "") eqn:E; [|reflexivity].
    apply String.eqb_eq in E. contradiction.
  - intros H. unfold finalName. rewrite H. destruct ps; reflexivity.
Qed.

(** X20: on Windows, once the script is written, the terminals are tried in
    a fixed order (Windows Terminal first) and the first one whose spawn
    neither throws nor errors within 100 ms is reported, nothing being
    tried after it; a failure is reported only after every one was tried.
    Every command tried ends with the path of the script that was
    written. *)
Theorem first_working_terminal_wins :
  forall m content fileName usePowershell dir,
    platform m = "win32" -> write_error m = None ->
    let fullPath := resolve dir (finalName extname fileName usePowershell) in
    let run := createAndOpenWindowsScript extname resolve m content fileName
                 usePowershell dir in
    (forall before cmd args after,
        attempts usePowershell fullPath = (before ++ (cmd, args) :: after)%list ->
        Forall (fun a => trySpawn m (fst a) (snd a) = false) before ->
        trySpawn m cmd args = true ->
        run = ((WriteFile fullPath content
                  :: map (fun a => Spawn (fst a) (snd a)) before
                  ++ [Spawn cmd args])%list,
               Launched fullPath cmd args))
    /\ (Forall (fun a => trySpawn m (fst a) (snd a) = false)
               (attempts usePowershell fullPath) ->
        run = ((WriteFile fullPath content
                  :: map (fun a => Spawn (fst a) (snd a))
                         (attempts usePowershell fullPath))%list,
               Failed "Failed to launch terminal to run the script"))
    /\ (forall a, In a (attempts usePowershell fullPath) ->
                  fst a <> "" /\ last (snd a) "" = fullPath)
    /\ (exists rest, attempts usePowershell fullPath
                     = (("wt", if usePowershell
                               then ["powershell"; "-NoExit"; "-File"; fullPath]
                               else ["cmd"; "/k"; fullPath]) :: rest)%list).
Proof.
  intros m content fileName ps dir Hp Hw fullPath run.
  unfold run, createAndOpenWindowsScript. rewrite Hp, Hw. cbn [String.eqb].
  change (resolve dir (finalName extname fileName ps)) with fullPath.
  split; [|split; [|split]].
  - intros before cmd args after Ha Hall Hok. simpl.
    rewrite Ha. now apply launch_first_working.
  - intros Hall. simpl. now apply launch_none_working.
  - intros a Hin. unfold attempts in Hin.
    destruct ps; simpl in Hin;
      repeat (destruct Hin as [<-|Hin]; [split; [discriminate|reflexivity]|]);
      contradiction.
  - unfold attempts. destruct ps; simpl; eauto.
Qed.

End Path.

(** Windows Terminal is missing and [cmd.exe] works. *)
Lemma first_working_terminal_wins_witness :
  createAndOpenWindowsScript (fun _ => "") (fun dir name => dir ++ name)
    (mkMachine "win32" None
       (fun cmd _ => if String.eqb cmd "wt" then ErrorInTime
                     else StillRunning))
    "echo hi" "sample" false "C:/"
  = ([WriteFile "C:/sample.bat" "echo hi";
      Spawn "wt" ["cmd"; "/k"; "C:/sample.bat"];
      Spawn "cmd.exe" ["/c"; "start"; "cmd"; "/k"; "C:/sample.bat"]],
     Launched "C:/sample.bat" "cmd.exe"
              ["/c"; "start"; "cmd"; "/k"; "C:/sample.bat"]).
Proof.
  apply (proj1 (first_working_terminal_wins (fun _ => "")
                  (fun dir name => dir ++ name)
                  (mkMachine "win32" None
                     (fun cmd _ => if String.eqb cmd "wt" then ErrorInTime
                                   else StillRunning))
                  "echo hi" "sample" false "C:/" eq_refl eq_refl)
               [("wt", ["cmd"; "/k"; "C:/sample.bat"])] "cmd.exe"
               ["/c"; "start"; "cmd"; "/k"; "C:/sample.bat"] []);
    [reflexivity|repeat constructor|reflexivity].
Defined.

Lemma launcher_stops_before_spawning_witness :
  createAndOpenWindowsScript (fun _ => "") (fun dir name => dir ++ name)
    (mkMachine "linux" None (fun _ _ => StillRunning))
    "echo hi" "sample" false "/tmp/"
  = ([], Failed "Not running on Windows").
Proof.
  apply (launcher_stops_before_spawning (fun _ => "")
           (fun dir name => dir ++ name)
           (mkMachine "linux" None (fun _ _ => StillRunning))
           "echo hi" "sample" false "/tmp/").
  discriminate.
Defined.

End TerminalFacts.
